(** * analyze_transcripts.py: sentence classifier and report builder

    A shallow embedding of [src/research/videos/analyze_transcripts.py]:
    the keyword classifier [extract_key_insights], the orchestration loop
    [analyze_videos] and the report builder [generate_markdown_report],
    followed by the properties the specification states about them.

    A Python [str] is a sequence of Unicode code points, so a string is a
    list of code points here and [len] is [length]. *)

From Stdlib Require Import Ascii String NArith Bool Arith Lia List Permutation.
Import ListNotations.

Open Scope N_scope.
Open Scope nat_scope.
Open Scope list_scope.

(* ================================================================== *)
(** ** Python strings *)

Definition char := N.
Definition str := list char.

Definition str_eq_dec : forall a b : str, {a = b} + {a <> b} :=
  list_eq_dec N.eq_dec.

(** An ASCII literal of the source as a sequence of code points. *)
Definition py (s : string) : str :=
  map N_of_ascii (list_ascii_of_string s).

(** The newline character written [\n] in the source. *)
Definition nl : str := [10%N].

(** A literal line of the source followed by its newline. *)
Definition ln (s : string) : str := py s ++ nl.

(** [str.isspace] on one character: the code points CPython classifies as
    whitespace, which are the ones [str.strip()] removes. *)
Definition isspace (c : char) : bool :=
  ((0x09 <=? c) && (c <=? 0x0D))%N
  || ((0x1C <=? c) && (c <=? 0x20))%N
  || (c =? 0x85)%N || (c =? 0xA0)%N || (c =? 0x1680)%N
  || ((0x2000 <=? c) && (c <=? 0x200A))%N
  || (c =? 0x2028)%N || (c =? 0x2029)%N || (c =? 0x202F)%N
  || (c =? 0x205F)%N || (c =? 0x3000)%N.

Fixpoint lstrip (s : str) : str :=
  match s with
  | [] => []
  | c :: s' => if isspace c then lstrip s' else s
  end.

Definition rstrip (s : str) : str := rev (lstrip (rev s)).

(** [s.strip()] *)
Definition strip (s : str) : str := rstrip (lstrip s).

(** [s.startswith(p)] *)
Fixpoint startswith (p s : str) : bool :=
  match p, s with
  | [], _ => true
  | _ :: _, [] => false
  | a :: p', b :: s' => (a =? b)%N && startswith p' s'
  end.

(** [needle in hay] for strings: [needle] occurs at some position of
    [hay]. *)
Fixpoint contains (needle hay : str) : bool :=
  startswith needle hay ||
  match hay with
  | [] => false
  | _ :: hay' => contains needle hay'
  end.

(** [str.lower()] on a character of the ASCII range. *)
Definition ascii_lower_char (c : char) : char :=
  if ((65 <=? c) && (c <=? 90))%N then (c + 32)%N else c.

Definition ascii_lower (s : str) : str := map ascii_lower_char s.

Definition is_ascii (s : str) : Prop := Forall (fun c => (c < 128)%N) s.

(** The character class [[.!?]] of the splitting pattern. *)
Definition is_terminator (c : char) : bool :=
  (c =? 46)%N || (c =? 33)%N || (c =? 63)%N.

(** The first piece of [text] and the pieces after it. *)
Fixpoint split_pieces (text : str) : str * list str :=
  match text with
  | [] => ([], [])
  | c :: text' =>
      let (piece, pieces) := split_pieces text' in
      if is_terminator c then ([], piece :: pieces) else (c :: piece, pieces)
  end.

(** [re.split(r'[.!?]', text)] *)
Definition re_split (text : str) : list str :=
  let (piece, pieces) := split_pieces text in piece :: pieces.

(** Decimal digits, most significant first. *)
Fixpoint digits (u : Decimal.uint) : str :=
  match u with
  | Decimal.Nil => []
  | Decimal.D0 u => 48%N :: digits u
  | Decimal.D1 u => 49%N :: digits u
  | Decimal.D2 u => 50%N :: digits u
  | Decimal.D3 u => 51%N :: digits u
  | Decimal.D4 u => 52%N :: digits u
  | Decimal.D5 u => 53%N :: digits u
  | Decimal.D6 u => 54%N :: digits u
  | Decimal.D7 u => 55%N :: digits u
  | Decimal.D8 u => 56%N :: digits u
  | Decimal.D9 u => 57%N :: digits u
  end.

(** [str(n)] for a non-negative [int], as an f-string renders it. *)
Definition str_of_nat (n : nat) : str := digits (Nat.to_uint n).

(** One possible [list(set(l))]: the distinct elements of [l]. *)
Definition distinct (l : list str) : list str := nodup str_eq_dec l.

(* ================================================================== *)
(** ** The classifier's record and keyword tables *)

(** The dictionary [insights] built by [extract_key_insights]. *)
Record Insights : Type := mkInsights {
  title : str;
  implementation_patterns : list str;
  performance_tips : list str;
  game_mechanics : list str;
  common_issues : list str;
  code_snippets : list str
}.

Definition implementation_keywords : list str :=
  map py ["setup"; "initialize"; "create"; "implement"; "code"; "function";
          "class"; "method"]%string.

Definition performance_keywords : list str :=
  map py ["optimize"; "performance"; "fps"; "frame rate"; "latency"; "speed";
          "fast"; "efficient"]%string.

Definition game_keywords : list str :=
  map py ["game"; "score"; "player"; "collision"; "physics"; "movement";
          "control"; "input"]%string.

Definition issue_keywords : list str :=
  map py ["problem"; "issue"; "error"; "fix"; "solution"; "debug";
          "troubleshoot"; "careful"]%string.

(** [any(keyword in sentence_lower for keyword in keywords)] *)
Definition any_keyword_in (keywords : list str) (sentence_lower : str) : bool :=
  existsb (fun keyword => contains keyword sentence_lower) keywords.

(** The test guarding the append to [code_snippets]. *)
Definition has_code_token (sentence : str) : bool :=
  contains (py "const ") sentence || contains (py "let ") sentence
  || contains (py "function ") sentence || contains (py "var ") sentence.

Definition append_implementation_pattern (i : Insights) (s : str) : Insights :=
  mkInsights (title i) (implementation_patterns i ++ [s]) (performance_tips i)
             (game_mechanics i) (common_issues i) (code_snippets i).

Definition append_performance_tip (i : Insights) (s : str) : Insights :=
  mkInsights (title i) (implementation_patterns i) (performance_tips i ++ [s])
             (game_mechanics i) (common_issues i) (code_snippets i).

Definition append_game_mechanic (i : Insights) (s : str) : Insights :=
  mkInsights (title i) (implementation_patterns i) (performance_tips i)
             (game_mechanics i ++ [s]) (common_issues i) (code_snippets i).

Definition append_common_issue (i : Insights) (s : str) : Insights :=
  mkInsights (title i) (implementation_patterns i) (performance_tips i)
             (game_mechanics i) (common_issues i ++ [s]) (code_snippets i).

Definition append_code_snippet (i : Insights) (s : str) : Insights :=
  mkInsights (title i) (implementation_patterns i) (performance_tips i)
             (game_mechanics i) (common_issues i) (code_snippets i ++ [s]).

(** The dictionary once [analyze_videos] has added the keys [video_id] and
    [transcript_length]: the record [generate_markdown_report] reads. *)
Record InsightRecord : Type := mkInsightRecord {
  classified :> Insights;
  video_id : str;
  transcript_length : nat
}.

(** The global [VIDEO_IDS], in insertion order. *)
Definition VIDEO_IDS : list (str * str) :=
  [ (py "OhMs-ipk8gE", py "MediaPipe Pose Detection in JavaScript");
    (py "cc0H_sZrOiM", py "Google MediaPipe Pose - JavaScript Tutorial");
    (py "FPD9YnxHJfE", py "PoseNet Real-Time Pose Detection");
    (py "Iy4UQNZklyk", py "Build AI Pose Estimation App");
    (py "9wy7P2GJvhE", py "Pose Estimation Game Tutorial");
    (py "4c0pOJnt994", py "Motion Capture Games with JavaScript");
    (py "pjAihwONJuI", py "Gesture Recognition Gaming");
    (py "6CKjCLfL7FE", py "Optimizing MediaPipe Performance");
    (py "T0kzis7cwJM", py "Real-time Computer Vision Optimization") ].

(* ================================================================== *)
(** ** Fixed text of the report *)

(** The opening f-string, with [now] the formatted time stamp and [n] the
    number of records. *)
Definition report_header (now : str) (n : nat) : str :=
  ln "# YouTube Video Analysis: Pose Detection Gaming"
  ++ py "*Generated on " ++ now ++ ln "*"
  ++ nl
  ++ py "## " ++ [0x1F4CA%N] ++ ln " Analysis Summary"
  ++ nl
  ++ py "Analyzed " ++ str_of_nat n
  ++ ln " videos about pose detection in gaming applications."
  ++ nl
  ++ py "## " ++ [0x1F3AF%N] ++ ln " Key Implementation Patterns"
  ++ nl.

Definition performance_heading : str :=
  nl ++ py "## " ++ [0x26A1%N] ++ ln " Performance Optimization Tips" ++ nl.

Definition game_heading : str :=
  nl ++ py "## " ++ [0x1F3AE%N] ++ ln " Game Mechanics Insights" ++ nl.

Definition issues_heading : str :=
  nl ++ py "## " ++ [0x26A0%N; 0xFE0F%N] ++ ln " Common Issues and Solutions" ++ nl.

Definition summaries_heading : str :=
  nl ++ py "## " ++ [0x1F4F9%N] ++ ln " Video Summaries" ++ nl.

(** The closing literal: "Key Takeaways" and "Recommended Implementation
    Order". *)
Definition static_trailer : str :=
  nl
  ++ py "## " ++ [0x1F50D%N] ++ ln " Key Takeaways for Our Project"
  ++ nl
  ++ ln "Based on the analysis of these videos, here are the most important insights for our pose detection game:"
  ++ nl
  ++ ln "1. **Use MediaPipe over PoseNet** - Multiple videos emphasize MediaPipe's superior performance"
  ++ ln "2. **Implement pose smoothing** - Essential for stable gameplay experience"
  ++ ln "3. **Optimize detection zones** - Focus on specific body parts relevant to game mechanics"
  ++ ln "4. **Add visual feedback** - Show skeleton overlay and detection confidence"
  ++ ln "5. **Handle edge cases** - Account for partial visibility and multiple people"
  ++ ln "6. **Test different lighting** - Pose detection accuracy varies with lighting conditions"
  ++ ln "7. **Consider mobile performance** - Reduce model complexity for mobile devices"
  ++ ln "8. **Add calibration phase** - Let players adjust their position before starting"
  ++ ln "9. **Use confidence thresholds** - Filter out low-confidence detections"
  ++ ln "10. **Implement gesture debouncing** - Prevent accidental repeated actions"
  ++ nl
  ++ py "## " ++ [0x1F4DA%N] ++ ln " Recommended Implementation Order"
  ++ nl
  ++ ln "1. Set up basic MediaPipe pose detection"
  ++ ln "2. Implement pose landmark visualization"
  ++ ln "3. Create simple gesture recognition (e.g., hands up)"
  ++ ln "4. Add game mechanics tied to specific poses"
  ++ ln "5. Implement score system and feedback"
  ++ ln "6. Optimize performance and add smoothing"
  ++ ln "7. Add multiplayer support if needed"
  ++ ln "8. Polish with effects and sound".

(** The f-string [f"- {pattern}\n"]. *)
Definition bullet (item : str) : str := py "- " ++ item ++ nl.

(** The strings appended to the report for one record, one parenthesis
    for each [report +=]. *)
Definition video_summary (video : InsightRecord) : str :=
  (py "### " ++ title video ++ nl)
  ++ (py "- **Video ID**: " ++ video_id video ++ nl)
  ++ (py "- **Transcript Length**: " ++ str_of_nat (transcript_length video)
      ++ ln " segments")
  ++ (py "- **Key Insights**: "
      ++ str_of_nat (length (implementation_patterns video)) ++ py " patterns, ")
  ++ (str_of_nat (length (performance_tips video)) ++ py " tips, "
      ++ str_of_nat (length (game_mechanics video)) ++ py " mechanics" ++ nl ++ nl).

(** The four keyword categories, each with its keyword table and its
    sequence in the record. *)
Inductive Category : Type :=
  | Implementation
  | Performance
  | GameMechanics
  | CommonIssues.

Definition keywords_of (cat : Category) : list str :=
  match cat with
  | Implementation => implementation_keywords
  | Performance => performance_keywords
  | GameMechanics => game_keywords
  | CommonIssues => issue_keywords
  end.

Definition sequence_of (cat : Category) : Insights -> list str :=
  match cat with
  | Implementation => implementation_patterns
  | Performance => performance_tips
  | GameMechanics => game_mechanics
  | CommonIssues => common_issues
  end.

(** [k] is a substring of [hay]. *)
Definition occurs_in (k hay : str) : Prop :=
  exists before after, hay = before ++ k ++ after.

(** A string that neither begins nor ends with a whitespace character. *)
Definition begins_with_space (s : str) : bool :=
  match s with
  | [] => false
  | c :: _ => isspace c
  end.

Definition ends_with_space (s : str) : bool := begins_with_space (rev s).

(** The number of characters of [text] that the splitting pattern
    matches. *)
Definition count_terminators (text : str) : nat :=
  length (filter is_terminator text).

Definition terminator_free (s : str) : Prop :=
  forall c, In c s -> is_terminator c = false.

(* ================================================================== *)
(** ** Inputs of the worked examples *)

Definition demo_text : str :=
  py "We need to optimize performance for the game. Initialize the player position carefully.".

Definition demo_optimize : str :=
  py "We need to optimize performance for the game".

Definition demo_initialize : str :=
  py "Initialize the player position carefully".

(** A text in which one qualifying sentence occurs twice. *)
Definition repeated_text : str :=
  py "Create the player setup code. Create the player setup code.".

Definition repeated_sentence : str := py "Create the player setup code".

(** A transcript service that knows one video, whose transcript is the
    text of the worked example in a single segment. *)
Definition demo_fetch (id : str) : option str :=
  if str_eq_dec id (py "OhMs-ipk8gE") then Some demo_text else None.

(** [s.isascii()] *)
Definition isascii (s : str) : bool := forallb (fun c => (c <? 128)%N) s.

(* ================================================================== *)
(** ** Further vocabulary *)

(** The four code tokens without their closing space. *)
Definition code_words : list str :=
  map py ["const"; "let"; "function"; "var"]%string.

(** A record with its [code_snippets] emptied and every other key kept. *)
Definition without_code_snippets (video : InsightRecord) : InsightRecord :=
  mkInsightRecord
    (mkInsights (title video) (implementation_patterns video)
                (performance_tips video) (game_mechanics video)
                (common_issues video) [])
    (video_id video) (transcript_length video).

(** The first line of [s] and the lines after it. *)
Fixpoint split_lines (s : str) : str * list str :=
  match s with
  | [] => ([], [])
  | c :: s' =>
      let (line, lines) := split_lines s' in
      if (c =? 10)%N then ([], line :: lines) else (c :: line, lines)
  end.

(** [s.split('\n')]: the lines of a string. *)
Definition lines_of (s : str) : list str :=
  let (line, lines) := split_lines s in line :: lines.

(** Lines written one after the other, each closed by a line break. *)
Definition unlines (lines : list str) : str :=
  concat (map (fun line => line ++ nl) lines).

(** ['\n'.join(segments)] *)
Definition join_newline (segments : list str) : str :=
  match segments with
  | [] => []
  | first :: rest => first ++ concat (map (fun segment => nl ++ segment) rest)
  end.

(** A markdown bullet line and a level-2 heading line. *)
Definition is_bullet_line (line : str) : bool := startswith (py "- ") line.

Definition is_heading_line (line : str) : bool := startswith (py "## ") line.

(** The line a sentence is written on. *)
Definition bullet_line (item : str) : str := py "- " ++ item.

(** The heading line of the aggregate section of a category. *)
Definition heading_line (cat : Category) : str :=
  match cat with
  | Implementation =>
      py "## " ++ [0x1F3AF%N] ++ py " Key Implementation Patterns"
  | Performance =>
      py "## " ++ [0x26A1%N] ++ py " Performance Optimization Tips"
  | GameMechanics =>
      py "## " ++ [0x1F3AE%N] ++ py " Game Mechanics Insights"
  | CommonIssues =>
      py "## " ++ [0x26A0%N; 0xFE0F%N] ++ py " Common Issues and Solutions"
  end.

Definition summaries_line : str :=
  py "## " ++ [0x1F4F9%N] ++ py " Video Summaries".

(** The lines that follow the first line equal to [heading]. *)
Fixpoint lines_after (heading : str) (lines : list str) : list str :=
  match lines with
  | [] => []
  | line :: rest =>
      if str_eq_dec line heading then rest else lines_after heading rest
  end.

(** The lines before the first heading line. *)
Fixpoint lines_until_heading (lines : list str) : list str :=
  match lines with
  | [] => []
  | line :: rest =>
      if is_heading_line line then [] else line :: lines_until_heading rest
  end.

(** The aggregate section of a category in a report, read from the
    markdown string: the lines after the category's heading line up to the
    next level-2 heading. *)
Definition section_lines (cat : Category) (report : str) : list str :=
  lines_until_heading (lines_after (heading_line cat) (lines_of report)).

(** The bullets of that section: its lines that begin with "- ". *)
Definition section_bullets (cat : Category) (report : str) : list str :=
  filter is_bullet_line (section_lines cat report).

(** A string without line break. *)
Definition single_line (s : str) : bool := negb (existsb (N.eqb 10) s).

(** Records whose sentences of the four keyword categories are all
    without line break. *)
Definition single_line_records (insights_data : list InsightRecord) : bool :=
  forallb (fun video : InsightRecord =>
             forallb single_line
               (implementation_patterns video ++ performance_tips video
                ++ game_mechanics video ++ common_issues video))
          insights_data.

(** The lines under the heading of a section whose sentences hold no line
    break: a blank line, one bullet line for each sentence, a blank
    line. *)
Definition section_body (items : list str) : list str :=
  [] :: map bullet_line items ++ [[]].

(** The lines of the opening f-string before the first section heading. *)
Definition header_lines (now : str) (n : nat) : list str :=
  [ py "# YouTube Video Analysis: Pose Detection Gaming";
    py "*Generated on " ++ now ++ py "*";
    [];
    py "## " ++ [0x1F4CA%N] ++ py " Analysis Summary";
    [];
    py "Analyzed " ++ str_of_nat n
      ++ py " videos about pose detection in gaming applications.";
    [] ].

(** The number of line breaks in a string. *)
Definition line_breaks (s : str) : nat := count_occ N.eq_dec s 10%N.

(** Whether the fetch of a catalog entry returns. *)
Definition fetch_succeeds {Transcript : Type}
    (fetch : str -> option Transcript) (entry : str * str) : bool :=
  match fetch (fst entry) with
  | Some _ => true
  | None => false
  end.

(** *** Inputs with line breaks *)

(** Twelve captions without punctuation, the later ones opening with the
    dialogue dash, as the transcript formatter joins them. *)
Definition dialogue_captions : list str :=
  map py ["first we implement the game loop"; "- ok"; "- then the canvas";
          "- right"; "- and the camera"; "- yes"; "- now the model";
          "- loaded"; "- and the pose"; "- found"; "- draw it"; "- done"]%string.

Definition dialogue_text : str := join_newline dialogue_captions.

(** Two sentences, the second holding the first after a line break. *)
Definition loop_sentence : str := py "implement the game loop now".

Definition canvas_sentence : str :=
  join_newline [py "create the canvas first"; py "- implement the game loop now"].

(* ================================================================== *)
(** ** The program *)

Section Program.

Set Default Proof Using "Type".

(** [str.lower]: its Unicode case tables are not part of the program, so
    the classifier is stated for any lower-casing function. *)
Variable lower : str -> str.

(** [list(set(l))]: the iteration order of a Python set is unspecified, so
    the report is stated for any listing of a set's elements. *)
Variable list_of_set : list str -> list str.

(** [datetime.now().strftime('%Y-%m-%d %H:%M:%S')] at the call. *)
Variable now : str.

(** The transcript service: [fetch video_id] is [ytt_api.fetch(video_id,
    languages=['en'])], [None] when it raises; [format_transcript] is
    [TextFormatter.format_transcript] and [segment_count] is [len]. *)
Variable Transcript : Type.
Variable fetch : str -> option Transcript.
Variable format_transcript : Transcript -> str.
Variable segment_count : Transcript -> nat.

(** The body of the loop over [sentences]: the five tests in the order of
    the source, each appending to its own list. *)
Definition classify_sentence (insights : Insights) (sentence : str) : Insights :=
  let sentence_lower := strip (lower sentence) in
  let insights :=
    if any_keyword_in implementation_keywords sentence_lower then
      if 20 <? length (strip sentence)
      then append_implementation_pattern insights (strip sentence)
      else insights
    else insights in
  let insights :=
    if any_keyword_in performance_keywords sentence_lower then
      if 20 <? length (strip sentence)
      then append_performance_tip insights (strip sentence)
      else insights
    else insights in
  let insights :=
    if any_keyword_in game_keywords sentence_lower then
      if 20 <? length (strip sentence)
      then append_game_mechanic insights (strip sentence)
      else insights
    else insights in
  let insights :=
    if any_keyword_in issue_keywords sentence_lower then
      if 20 <? length (strip sentence)
      then append_common_issue insights (strip sentence)
      else insights
    else insights in
  if has_code_token sentence
  then append_code_snippet insights (strip sentence)
  else insights.

Definition extract_key_insights (transcript_text video_title : str) : Insights :=
  let insights := mkInsights video_title [] [] [] [] [] in
  let sentences := re_split transcript_text in
  fold_left classify_sentence sentences insights.

(** The condition under which a candidate sentence enters the category
    with keyword table [keywords]: a keyword occurs in the lower-cased
    trimmed copy and the trimmed original is longer than 20. *)
Definition qualifies (keywords : list str) (sentence : str) : bool :=
  any_keyword_in keywords (strip (lower sentence))
  && (20 <? length (strip sentence)).

(** One iteration of the loop of [analyze_videos]; the [except] branch
    leaves [all_insights] as it is. *)
Definition analyze_video (all_insights : list InsightRecord)
    (entry : str * str) : list InsightRecord :=
  let (id, label) := entry in
  match fetch id with
  | Some transcript =>
      let text := format_transcript transcript in
      let insights := extract_key_insights text label in
      all_insights ++ [mkInsightRecord insights id (segment_count transcript)]
  | None => all_insights
  end.

(** [analyze_videos], with the catalog it iterates as an argument; the
    source runs it on [VIDEO_IDS]. *)
Definition analyze_videos (catalog : list (str * str)) : list InsightRecord :=
  fold_left analyze_video catalog [].

(** [all_x = []; for video in insights_data: all_x.extend(video[x])] *)
Definition pooled (field : Insights -> list str)
    (insights_data : list InsightRecord) : list str :=
  fold_left (fun all video => all ++ field (classified video)) insights_data [].

(** [list(set(all_x))[:10]] *)
Definition unique10 (all : list str) : list str :=
  firstn 10 (list_of_set all).

(** [for item in unique_x: report += f"- {item}\n"] *)
Definition emit_bullets (report : str) (items : list str) : str :=
  fold_left (fun report item => report ++ bullet item) items report.

Definition unique_patterns (insights_data : list InsightRecord) : list str :=
  unique10 (pooled implementation_patterns insights_data).

Definition unique_tips (insights_data : list InsightRecord) : list str :=
  unique10 (pooled performance_tips insights_data).

Definition unique_mechanics (insights_data : list InsightRecord) : list str :=
  unique10 (pooled game_mechanics insights_data).

Definition unique_issues (insights_data : list InsightRecord) : list str :=
  unique10 (pooled common_issues insights_data).

(** The items of the aggregate section of a category: the list the source
    names [unique_patterns], [unique_tips], [unique_mechanics] and
    [unique_issues]. *)
Definition aggregate_section (cat : Category)
    (insights_data : list InsightRecord) : list str :=
  match cat with
  | Implementation => unique_patterns insights_data
  | Performance => unique_tips insights_data
  | GameMechanics => unique_mechanics insights_data
  | CommonIssues => unique_issues insights_data
  end.

Definition generate_markdown_report (insights_data : list InsightRecord) : str :=
  let report := report_header now (length insights_data) in
  let report := emit_bullets report (unique_patterns insights_data) in
  let report := report ++ performance_heading in
  let report := emit_bullets report (unique_tips insights_data) in
  let report := report ++ game_heading in
  let report := emit_bullets report (unique_mechanics insights_data) in
  let report := report ++ issues_heading in
  let report := emit_bullets report (unique_issues insights_data) in
  let report := report ++ summaries_heading in
  let report :=
    fold_left (fun report video => report ++ video_summary video)
              insights_data report in
  report ++ static_trailer.

(** The lines of a report down to the blank line under the "Video
    Summaries" heading, when no line break comes from the data. *)
Definition report_lines (insights_data : list InsightRecord) : list str :=
  header_lines now (length insights_data)
  ++ [heading_line Implementation]
  ++ section_body (aggregate_section Implementation insights_data)
  ++ [heading_line Performance]
  ++ section_body (aggregate_section Performance insights_data)
  ++ [heading_line GameMechanics]
  ++ section_body (aggregate_section GameMechanics insights_data)
  ++ [heading_line CommonIssues]
  ++ section_body (aggregate_section CommonIssues insights_data)
  ++ [summaries_line; []].

(* ================================================================== *)
(** ** Python strings: substring test, trimming, splitting *)

Lemma startswith_spec (p s : str) :
  startswith p s = true <-> exists after, s = p ++ after.
Proof.
  revert s; induction p as [|a p IH]; intros s; simpl.
  - split; [intros _; now exists s | reflexivity].
  - destruct s as [|b s].
    + split; [discriminate | intros [after H]; discriminate].
    + rewrite andb_true_iff, N.eqb_eq, IH. split.
      * intros [-> [after ->]]. now exists after.
      * intros [after H]. injection H as -> ->. split; [reflexivity | now exists after].
Qed.

Lemma contains_spec (k hay : str) :
  contains k hay = true <-> occurs_in k hay.
Proof.
  unfold occurs_in. induction hay as [|c hay IH]; simpl.
  - rewrite orb_false_r, startswith_spec. split.
    + intros [after H]. now exists [], after.
    + intros [before [after H]]. destruct before; simpl in H.
      * now exists after.
      * discriminate.
  - rewrite orb_true_iff, startswith_spec, IH. split.
    + intros [[after H] | [before [after H]]].
      * now exists [], after.
      * exists (c :: before), after. simpl. now rewrite H.
    + intros [before [after H]]. destruct before as [|b before]; simpl in H.
      * left. now exists after.
      * right. injection H as _ H. now exists before, after.
Qed.

Lemma any_keyword_in_spec (keywords : list str) (s : str) :
  any_keyword_in keywords s = true <->
  exists k, In k keywords /\ occurs_in k s.
Proof.
  unfold any_keyword_in. rewrite existsb_exists.
  split; intros [k [Hk H]]; exists k; split; auto; now apply contains_spec.
Qed.

Lemma lstrip_suffix (s : str) :
  exists spaces, s = spaces ++ lstrip s /\ forallb isspace spaces = true.
Proof.
  induction s as [|c s [spaces [IH1 IH2]]]; simpl.
  - now exists [].
  - destruct (isspace c) eqn:E.
    + exists (c :: spaces). simpl. rewrite E, IH2. split; [now f_equal | reflexivity].
    + now exists [].
Qed.

Lemma lstrip_begins (s : str) : begins_with_space (lstrip s) = false.
Proof.
  induction s as [|c s IH]; simpl; [reflexivity|].
  destruct (isspace c) eqn:E; [exact IH | simpl; exact E].
Qed.

Lemma lstrip_fixed (s : str) : begins_with_space s = false -> lstrip s = s.
Proof.
  destruct s as [|c s]; simpl; [reflexivity | now intros ->].
Qed.

Lemma In_lstrip (c : char) (s : str) : In c (lstrip s) -> In c s.
Proof.
  destruct (lstrip_suffix s) as [spaces [H _]]. intros Hin.
  rewrite H. apply in_or_app. now right.
Qed.

Lemma In_strip (c : char) (s : str) : In c (strip s) -> In c s.
Proof.
  unfold strip, rstrip. intros H.
  apply In_lstrip. apply in_rev. apply In_lstrip. now apply in_rev in H.
Qed.

Lemma lstrip_nonempty_last (s : str) (c : char) :
  isspace c = false -> lstrip (s ++ [c]) = lstrip s ++ [c].
Proof.
  intros Hc. induction s as [|a s IH]; simpl.
  - now rewrite Hc.
  - destruct (isspace a); [exact IH | reflexivity].
Qed.

Lemma strip_ends (s : str) : ends_with_space (strip s) = false.
Proof.
  unfold ends_with_space, strip, rstrip. rewrite rev_involutive.
  apply lstrip_begins.
Qed.

(** Trimming on the right keeps a first character that is not a space. *)
Lemma rstrip_begins (s : str) :
  begins_with_space s = false -> begins_with_space (rstrip s) = false.
Proof.
  unfold rstrip. destruct s as [|c s]; simpl; [reflexivity|]. intros Hc.
  rewrite lstrip_nonempty_last by exact Hc.
  rewrite rev_app_distr. simpl. exact Hc.
Qed.

Lemma strip_begins (s : str) : begins_with_space (strip s) = false.
Proof.
  unfold strip. apply rstrip_begins, lstrip_begins.
Qed.

Lemma strip_fixed (s : str) :
  begins_with_space s = false -> ends_with_space s = false -> strip s = s.
Proof.
  unfold strip, rstrip, ends_with_space. intros Hb He.
  rewrite (lstrip_fixed s Hb), (lstrip_fixed (rev s) He).
  apply rev_involutive.
Qed.

Lemma strip_idempotent (s : str) : strip (strip s) = strip s.
Proof.
  apply strip_fixed; [apply strip_begins | apply strip_ends].
Qed.

Lemma terminator_free_check (s : str) :
  existsb is_terminator s = false -> terminator_free s.
Proof.
  unfold terminator_free. intros H c Hc.
  destruct (is_terminator c) eqn:E; [|reflexivity].
  rewrite <- H. symmetry. apply existsb_exists. now exists c.
Qed.

Lemma distinct_NoDup (l : list str) : NoDup (distinct l).
Proof.
  apply NoDup_nodup.
Qed.

Lemma distinct_In (l : list str) (x : str) : In x (distinct l) <-> In x l.
Proof.
  apply nodup_In.
Qed.

Lemma split_pieces_no_terminator (text : str) :
  terminator_free text -> split_pieces text = (text, []).
Proof.
  unfold terminator_free.
  induction text as [|c text IH]; intros H; simpl; [reflexivity|].
  rewrite IH by (intros d Hd; apply H; now right).
  now rewrite (H c (or_introl eq_refl)).
Qed.

Lemma split_pieces_app (s : str) (c : char) (rest : str) :
  terminator_free s -> is_terminator c = true ->
  split_pieces (s ++ c :: rest) = (s, re_split rest).
Proof.
  unfold terminator_free, re_split. intros Hs Hc.
  induction s as [|a s IH]; simpl.
  - rewrite Hc. now destruct (split_pieces rest).
  - rewrite IH by (intros d Hd; apply Hs; now right).
    now rewrite (Hs a (or_introl eq_refl)).
Qed.

Lemma split_pieces_free (text : str) :
  terminator_free (fst (split_pieces text))
  /\ Forall terminator_free (snd (split_pieces text)).
Proof.
  unfold terminator_free.
  induction text as [|c text [IH1 IH2]]; simpl.
  - split; [intros c [] | constructor].
  - destruct (split_pieces text) as [piece pieces]; simpl in *.
    destruct (is_terminator c) eqn:E; simpl.
    + split; [intros d [] | now constructor].
    + split; [|exact IH2]. intros d [<- | Hd]; [exact E | now apply IH1].
Qed.

Lemma re_split_free (text : str) : Forall terminator_free (re_split text).
Proof.
  unfold re_split. pose proof (split_pieces_free text) as [H1 H2].
  destruct (split_pieces text); simpl in *. now constructor.
Qed.

Lemma split_pieces_length (text : str) :
  length (snd (split_pieces text)) = count_terminators text.
Proof.
  unfold count_terminators. induction text as [|c text IH]; simpl; [reflexivity|].
  destruct (split_pieces text) as [piece pieces]; simpl in *.
  destruct (is_terminator c); simpl; now rewrite IH.
Qed.

Lemma split_pieces_chars (P : char -> Prop) (text : str) :
  Forall P text ->
  Forall P (fst (split_pieces text))
  /\ Forall (Forall P) (snd (split_pieces text)).
Proof.
  induction text as [|c text IH]; intros H; simpl.
  - split; constructor.
  - inversion H as [|? ? Hc Ht]; subst. destruct (IH Ht) as [IH1 IH2].
    destruct (split_pieces text) as [piece pieces]; simpl in *.
    destruct (is_terminator c); simpl; split; auto.
Qed.

Lemma re_split_chars (P : char -> Prop) (text : str) :
  Forall P text -> Forall (Forall P) (re_split text).
Proof.
  intros H. unfold re_split. destruct (split_pieces_chars P text H) as [H1 H2].
  destruct (split_pieces text); simpl in *. now constructor.
Qed.

(* ================================================================== *)
(** ** The classifier *)

(** The loop of [extract_key_insights] from any intermediate record: each
    of the five lists grows by the trimmed sentences that pass its own
    test, in the order of the sentences. *)
Lemma classify_fold (sentences : list str) : forall acc : Insights,
  fold_left classify_sentence sentences acc =
  mkInsights (title acc)
    (implementation_patterns acc
       ++ map strip (filter (qualifies implementation_keywords) sentences))
    (performance_tips acc
       ++ map strip (filter (qualifies performance_keywords) sentences))
    (game_mechanics acc
       ++ map strip (filter (qualifies game_keywords) sentences))
    (common_issues acc
       ++ map strip (filter (qualifies issue_keywords) sentences))
    (code_snippets acc ++ map strip (filter has_code_token sentences)).
Proof.
  induction sentences as [|s sentences IH]; intros [t a b c d e].
  - cbn [fold_left filter map title implementation_patterns performance_tips
         game_mechanics common_issues code_snippets].
    now rewrite !app_nil_r.
  - cbn [fold_left filter]. rewrite IH. unfold classify_sentence, qualifies.
    generalize (any_keyword_in implementation_keywords (strip (lower s))).
    generalize (any_keyword_in performance_keywords (strip (lower s))).
    generalize (any_keyword_in game_keywords (strip (lower s))).
    generalize (any_keyword_in issue_keywords (strip (lower s))).
    generalize (20 <? length (strip s)).
    generalize (has_code_token s).
    intros [] [] [] [] [] [];
      cbn [map app title implementation_patterns performance_tips
           game_mechanics common_issues code_snippets andb
           append_implementation_pattern append_performance_tip
           append_game_mechanic append_common_issue append_code_snippet];
      rewrite <- ?app_assoc; reflexivity.
Qed.

Lemma extract_key_insights_eq (text label : str) :
  extract_key_insights text label =
  mkInsights label
    (map strip (filter (qualifies implementation_keywords) (re_split text)))
    (map strip (filter (qualifies performance_keywords) (re_split text)))
    (map strip (filter (qualifies game_keywords) (re_split text)))
    (map strip (filter (qualifies issue_keywords) (re_split text)))
    (map strip (filter has_code_token (re_split text))).
Proof.
  unfold extract_key_insights. now rewrite classify_fold.
Qed.

Lemma sequence_of_eq (cat : Category) (text label : str) :
  sequence_of cat (extract_key_insights text label) =
  map strip (filter (qualifies (keywords_of cat)) (re_split text)).
Proof.
  rewrite extract_key_insights_eq. now destruct cat.
Qed.

Lemma qualifies_spec (keywords : list str) (sentence : str) :
  qualifies keywords sentence = true <->
  (exists k, In k keywords /\ occurs_in k (strip (lower sentence)))
  /\ 20 < length (strip sentence).
Proof.
  unfold qualifies.
  now rewrite andb_true_iff, any_keyword_in_spec, Nat.ltb_lt.
Qed.

Lemma has_code_token_spec (sentence : str) :
  has_code_token sentence = true <->
  occurs_in (py "const ") sentence \/ occurs_in (py "let ") sentence
  \/ occurs_in (py "function ") sentence \/ occurs_in (py "var ") sentence.
Proof.
  unfold has_code_token. rewrite !orb_true_iff, !contains_spec.
  rewrite <- !or_assoc. reflexivity.
Qed.

(** Every stored string is the trimmed form of a candidate sentence. *)
Lemma stored_is_stripped (text label s : str) :
  In s (implementation_patterns (extract_key_insights text label))
  \/ In s (performance_tips (extract_key_insights text label))
  \/ In s (game_mechanics (extract_key_insights text label))
  \/ In s (common_issues (extract_key_insights text label))
  \/ In s (code_snippets (extract_key_insights text label)) ->
  exists sentence, In sentence (re_split text) /\ s = strip sentence.
Proof.
  rewrite extract_key_insights_eq. simpl.
  intros H; decompose [or] H; clear H;
    match goal with
    | H : In _ (map _ _) |- _ =>
        apply in_map_iff in H; destruct H as [sentence [<- H]];
        apply filter_In in H; destruct H as [H _]; now exists sentence
    end.
Qed.

Lemma terminator_free_chars (s : str) :
  terminator_free s <-> ~ In 46%N s /\ ~ In 33%N s /\ ~ In 63%N s.
Proof.
  unfold terminator_free. split.
  - intros H. repeat split; intros Hin; apply H in Hin; discriminate.
  - intros [H1 [H2 H3]] c Hc. unfold is_terminator.
    destruct (N.eqb_spec c 46); [subst; contradiction|].
    destruct (N.eqb_spec c 33); [subst; contradiction|].
    destruct (N.eqb_spec c 63); [subst; contradiction|]. reflexivity.
Qed.

(** C1: a candidate sentence is appended, trimmed, to the sequence of a
    keyword category exactly when it qualifies for that category: some
    keyword of the category's table is a substring of the lower-cased
    trimmed copy and the trimmed original is longer than 20 characters.
    The sequence is the trimmed qualifying sentences in their order, and
    qualifying for a category is enough to enter it whatever the other
    categories decide. *)
Theorem extract_key_insights_categories (text label : str) (cat : Category) :
  sequence_of cat (extract_key_insights text label)
  = map strip (filter (qualifies (keywords_of cat)) (re_split text))
  /\ (forall sentence,
        qualifies (keywords_of cat) sentence = true <->
        (exists k, In k (keywords_of cat)
                   /\ occurs_in k (strip (lower sentence)))
        /\ 20 < length (strip sentence))
  /\ (forall sentence,
        In sentence (re_split text) ->
        qualifies (keywords_of cat) sentence = true ->
        In (strip sentence) (sequence_of cat (extract_key_insights text label))).
Proof.
  split; [apply sequence_of_eq|]. split; [intros; apply qualifies_spec|].
  intros sentence Hin Hq. rewrite sequence_of_eq.
  apply in_map. apply filter_In. now split.
Qed.

(** C2: a candidate sentence is appended, trimmed, to [code_snippets]
    exactly when the sentence contains one of the literals "const ",
    "let ", "function ", "var "; no length is tested, and an entry can be
    20 characters long or shorter. *)
Theorem extract_key_insights_code_snippets (text label : str) :
  code_snippets (extract_key_insights text label)
  = map strip (filter has_code_token (re_split text))
  /\ (forall sentence,
        has_code_token sentence = true <->
        occurs_in (py "const ") sentence \/ occurs_in (py "let ") sentence
        \/ occurs_in (py "function ") sentence
        \/ occurs_in (py "var ") sentence)
  /\ (exists short entry,
        In entry (code_snippets (extract_key_insights short label))
        /\ length entry <= 20).
Proof.
  split; [now rewrite extract_key_insights_eq|].
  split; [intros; apply has_code_token_spec|].
  exists (py "let x = 1"), (py "let x = 1").
  rewrite extract_key_insights_eq. split; [left; reflexivity | vm_compute; lia].
Qed.

(** The token test reads the sentence as split, while the entry stored is
    its trimmed form: a token at the very end of a sentence loses its
    space in the entry. *)
Remark code_snippet_stored_trimmed (label : str) :
  code_snippets (extract_key_insights (py "x = let ") label) = [py "x = let"]
  /\ has_code_token (py "x = let ") = true
  /\ has_code_token (py "x = let") = false.
Proof.
  rewrite extract_key_insights_eq. vm_compute. now repeat split.
Qed.

Lemma sequence_of_fold (cat : Category) (sentences : list str)
    (acc : Insights) :
  sequence_of cat (fold_left classify_sentence sentences acc)
  = sequence_of cat acc
    ++ map strip (filter (qualifies (keywords_of cat)) sentences).
Proof.
  rewrite classify_fold. now destruct cat.
Qed.

(** C3: [extract_key_insights] classifies the pieces of the text between
    the characters '.', '!' and '?', one after the other.  A text without
    them is classified as one sentence, the whole text.  In a text
    [s ++ c :: rest] whose first terminator is [c], the first sentence
    classified is [s] and the classification goes on with [rest]: each
    sequence of the record is what [s] alone gives, followed by what
    [rest] gives.  There is one candidate sentence more than there are
    terminators. *)
Theorem extract_key_insights_splits_at_terminators :
  (forall c, is_terminator c = true <-> c = 46%N \/ c = 33%N \/ c = 63%N)
  /\ (forall text, terminator_free text -> re_split text = [text])
  /\ (forall s c rest,
        terminator_free s -> is_terminator c = true ->
        re_split (s ++ c :: rest) = s :: re_split rest)
  /\ (forall text, length (re_split text) = 1 + count_terminators text)
  /\ (forall text label,
        terminator_free text ->
        extract_key_insights text label
        = classify_sentence (mkInsights label [] [] [] [] []) text)
  /\ (forall text label,
        extract_key_insights text label
        = fold_left classify_sentence (re_split text)
                    (mkInsights label [] [] [] [] []))
  /\ (forall s c rest label,
        terminator_free s -> is_terminator c = true ->
        extract_key_insights (s ++ c :: rest) label
        = fold_left classify_sentence (re_split rest)
            (classify_sentence (mkInsights label [] [] [] [] []) s))
  /\ (forall s c rest label,
        terminator_free s -> is_terminator c = true ->
        (forall cat,
           sequence_of cat (extract_key_insights (s ++ c :: rest) label)
           = sequence_of cat
               (classify_sentence (mkInsights label [] [] [] [] []) s)
             ++ sequence_of cat (extract_key_insights rest label))
        /\ code_snippets (extract_key_insights (s ++ c :: rest) label)
           = code_snippets
               (classify_sentence (mkInsights label [] [] [] [] []) s)
             ++ code_snippets (extract_key_insights rest label)).
Proof.
  assert (Hstep : forall s c rest label,
            terminator_free s -> is_terminator c = true ->
            extract_key_insights (s ++ c :: rest) label
            = fold_left classify_sentence (re_split rest)
                (classify_sentence (mkInsights label [] [] [] [] []) s)).
  { intros s c rest label Hs Hc. unfold extract_key_insights.
    unfold re_split at 1. now rewrite split_pieces_app. }
  split.
  { intros c. unfold is_terminator. rewrite !orb_true_iff, !N.eqb_eq.
    rewrite <- !or_assoc. reflexivity. }
  split.
  { intros text H. unfold re_split. now rewrite split_pieces_no_terminator. }
  split.
  { intros s c rest Hs Hc. unfold re_split at 1.
    now rewrite split_pieces_app. }
  split.
  { intros text. unfold re_split. rewrite <- split_pieces_length.
    now destruct (split_pieces text). }
  split.
  { intros text label H. unfold extract_key_insights, re_split.
    now rewrite split_pieces_no_terminator. }
  split; [reflexivity|]. split; [exact Hstep|].
  intros s c rest label Hs Hc. rewrite (Hstep s c rest label Hs Hc). split.
  - intros cat. now rewrite sequence_of_fold, sequence_of_eq.
  - rewrite classify_fold, extract_key_insights_eq. reflexivity.
Qed.

(** C7: on the empty text the classifier returns the record with the given
    label and five empty sequences. *)
Theorem extract_key_insights_empty (label : str) :
  extract_key_insights [] label = mkInsights label [] [] [] [] [].
Proof.
  rewrite extract_key_insights_eq. unfold qualifies. cbn.
  now rewrite !andb_false_r.
Qed.

(** C9: a string stored in any of the five sequences neither begins nor
    ends with a whitespace character, so trimming leaves it unchanged, and
    it holds none of the characters '.', '!' and '?'. *)
Theorem stored_sentences_trimmed_and_unterminated (text label s : str) :
  In s (implementation_patterns (extract_key_insights text label))
  \/ In s (performance_tips (extract_key_insights text label))
  \/ In s (game_mechanics (extract_key_insights text label))
  \/ In s (common_issues (extract_key_insights text label))
  \/ In s (code_snippets (extract_key_insights text label)) ->
  begins_with_space s = false /\ ends_with_space s = false
  /\ strip s = s
  /\ ~ In 46%N s /\ ~ In 33%N s /\ ~ In 63%N s.
Proof.
  intros H. apply stored_is_stripped in H. destruct H as [sentence [Hin ->]].
  split; [apply strip_begins|]. split; [apply strip_ends|].
  split; [apply strip_idempotent|].
  apply terminator_free_chars. intros c Hc. apply In_strip in Hc.
  pose proof (re_split_free text) as Hfree.
  rewrite Forall_forall in Hfree. exact (Hfree sentence Hin c Hc).
Qed.

(* ================================================================== *)
(** ** The orchestration loop and the report builder *)

(** What one catalog entry adds to the collection. *)
Lemma analyze_video_eq (all_insights : list InsightRecord) (entry : str * str) :
  analyze_video all_insights entry = all_insights ++ analyze_video [] entry.
Proof.
  unfold analyze_video. destruct entry as [id label].
  destruct (fetch id); [reflexivity | now rewrite app_nil_r].
Qed.

Lemma analyze_fold (catalog : list (str * str)) :
  forall all_insights,
    fold_left analyze_video catalog all_insights
    = all_insights ++ flat_map (analyze_video []) catalog.
Proof.
  induction catalog as [|entry catalog IH]; intros acc; simpl.
  - now rewrite app_nil_r.
  - rewrite IH, (analyze_video_eq acc entry). now rewrite <- app_assoc.
Qed.

Lemma analyze_videos_app (before after : list (str * str)) :
  analyze_videos (before ++ after)
  = analyze_videos before ++ analyze_videos after.
Proof.
  unfold analyze_videos. rewrite !analyze_fold. simpl.
  apply flat_map_app.
Qed.

Lemma analyze_videos_cons (entry : str * str) (after : list (str * str)) :
  analyze_videos (entry :: after) = analyze_video [] entry ++ analyze_videos after.
Proof.
  unfold analyze_videos. now rewrite !analyze_fold.
Qed.

Lemma emit_bullets_eq (items : list str) : forall report,
  emit_bullets report items = report ++ concat (map bullet items).
Proof.
  unfold emit_bullets.
  induction items as [|item items IH]; intros report; simpl.
  - now rewrite app_nil_r.
  - rewrite IH. now rewrite <- app_assoc.
Qed.

Lemma summaries_fold (insights_data : list InsightRecord) : forall report,
  fold_left (fun report video => report ++ video_summary video)
            insights_data report
  = report ++ concat (map video_summary insights_data).
Proof.
  induction insights_data as [|video data IH]; intros report; simpl.
  - now rewrite app_nil_r.
  - rewrite IH. now rewrite <- app_assoc.
Qed.

Lemma pooled_fold (field : Insights -> list str)
    (insights_data : list InsightRecord) : forall all,
  fold_left (fun all video => all ++ field (classified video)) insights_data all
  = all ++ flat_map (fun video => field (classified video)) insights_data.
Proof.
  induction insights_data as [|video data IH]; intros all; simpl.
  - now rewrite app_nil_r.
  - rewrite IH. now rewrite <- app_assoc.
Qed.

Lemma pooled_eq (field : Insights -> list str)
    (insights_data : list InsightRecord) :
  pooled field insights_data
  = flat_map (fun video => field (classified video)) insights_data.
Proof.
  unfold pooled. now rewrite pooled_fold.
Qed.

Lemma aggregate_section_eq (cat : Category)
    (insights_data : list InsightRecord) :
  aggregate_section cat insights_data
  = firstn 10 (list_of_set (pooled (sequence_of cat) insights_data)).
Proof.
  now destruct cat.
Qed.

(** The report as one concatenation: the header, the four aggregate
    sections with the headings between them, the summaries and the closing
    text. *)
Lemma report_layout (insights_data : list InsightRecord) :
  generate_markdown_report insights_data
  = report_header now (length insights_data)
    ++ concat (map bullet (aggregate_section Implementation insights_data))
    ++ performance_heading
    ++ concat (map bullet (aggregate_section Performance insights_data))
    ++ game_heading
    ++ concat (map bullet (aggregate_section GameMechanics insights_data))
    ++ issues_heading
    ++ concat (map bullet (aggregate_section CommonIssues insights_data))
    ++ summaries_heading
    ++ concat (map video_summary insights_data)
    ++ static_trailer.
Proof.
  unfold generate_markdown_report, aggregate_section.
  rewrite summaries_fold, !emit_bullets_eq.
  now rewrite <- !app_assoc.
Qed.

Lemma aggregate_section_length (cat : Category)
    (insights_data : list InsightRecord) :
  length (aggregate_section cat insights_data) <= 10.
Proof.
  rewrite aggregate_section_eq. apply firstn_le_length.
Qed.

Lemma NoDup_firstn_of (n : nat) (l : list str) : NoDup l -> NoDup (firstn n l).
Proof.
  intros H. rewrite <- (firstn_skipn n l) in H.
  now apply NoDup_app_remove_r in H.
Qed.

Lemma In_firstn_of (n : nat) (l : list str) (x : str) :
  In x (firstn n l) -> In x l.
Proof.
  intros H. rewrite <- (firstn_skipn n l). apply in_or_app. now left.
Qed.

(** The listing of a set holds each element of the pool once. *)
Hypothesis list_of_set_NoDup : forall l, NoDup (list_of_set l).
Hypothesis list_of_set_In : forall l x, In x (list_of_set l) <-> In x l.

Lemma list_of_set_nil : list_of_set [] = [].
Proof using list_of_set_In.
  destruct (list_of_set []) as [|x l] eqn:E; [reflexivity|].
  exfalso. apply (proj1 (list_of_set_In [] x)). rewrite E. now left.
Qed.

Lemma aggregate_section_NoDup (cat : Category)
    (insights_data : list InsightRecord) :
  NoDup (aggregate_section cat insights_data).
Proof using list_of_set_NoDup.
  rewrite aggregate_section_eq. apply NoDup_firstn_of, list_of_set_NoDup.
Qed.

Lemma aggregate_section_nil (cat : Category) : aggregate_section cat [] = [].
Proof using list_of_set_In.
  rewrite aggregate_section_eq. unfold pooled. simpl.
  now rewrite list_of_set_nil.
Qed.

(** C8: a catalog entry whose fetch raises adds nothing to the collection
    and the entries around it are processed as if it were absent; a
    catalog of that one entry gives the empty collection, and the report
    of it has nothing between the "Video Summaries" heading and the
    closing text, which is there in full. *)
Theorem failed_fetch_is_skipped (id label : str) :
  fetch id = None ->
  (forall before after,
     analyze_videos (before ++ (id, label) :: after)
     = analyze_videos before ++ analyze_videos after)
  /\ analyze_videos [(id, label)] = []
  /\ length (analyze_videos [(id, label)]) = 0
  /\ generate_markdown_report (analyze_videos [(id, label)])
     = report_header now 0
       ++ performance_heading ++ game_heading ++ issues_heading
       ++ summaries_heading ++ static_trailer.
Proof using list_of_set_In.
  intros Hfetch.
  assert (Hone : analyze_video [] (id, label) = [])
    by (unfold analyze_video; now rewrite Hfetch).
  assert (Hnil : analyze_videos [(id, label)] = [])
    by (rewrite analyze_videos_cons, Hone; reflexivity).
  split.
  { intros before after.
    now rewrite analyze_videos_app, analyze_videos_cons, Hone. }
  split; [exact Hnil|]. split; [now rewrite Hnil|].
  rewrite Hnil, report_layout, !aggregate_section_nil. reflexivity.
Qed.

End Program.

(* ================================================================== *)
(** ** ASCII transcripts *)

Section AsciiText.

Set Default Proof Using "Type".

(** On a string of ASCII characters [str.lower] maps the letters A-Z to
    a-z and keeps every other character. *)
Variable lower : str -> str.
Hypothesis lower_ascii : forall s, is_ascii s -> lower s = ascii_lower s.

Variable list_of_set : list str -> list str.
Hypothesis list_of_set_NoDup : forall l, NoDup (list_of_set l).
Hypothesis list_of_set_In : forall l x, In x (list_of_set l) <-> In x l.

Lemma isascii_spec (s : str) : isascii s = true -> is_ascii s.
Proof.
  unfold isascii, is_ascii. rewrite forallb_forall, Forall_forall.
  intros H c Hc. now apply N.ltb_lt, H.
Qed.

Lemma is_ascii_strip (s : str) : is_ascii s -> is_ascii (strip s).
Proof.
  unfold is_ascii. rewrite !Forall_forall. intros H c Hc.
  apply H. now apply In_strip.
Qed.

Lemma qualifies_ascii (keywords : list str) (sentence : str) :
  is_ascii sentence ->
  qualifies lower keywords sentence = qualifies ascii_lower keywords sentence.
Proof using lower_ascii.
  intros H. unfold qualifies. now rewrite lower_ascii.
Qed.

(** On an ASCII text the classifier is the one that lower-cases A-Z. *)
Lemma extract_key_insights_ascii (text label : str) :
  is_ascii text ->
  extract_key_insights lower text label
  = extract_key_insights ascii_lower text label.
Proof using lower_ascii.
  intros H. rewrite !extract_key_insights_eq.
  pose proof (re_split_chars _ text H) as Hs. rewrite Forall_forall in Hs.
  f_equal; f_equal; apply filter_ext_in; intros s Hin;
    apply qualifies_ascii, Hs, Hin.
Qed.

Lemma list_of_set_pair (x : str) : list_of_set [x; x] = [x].
Proof using list_of_set_NoDup list_of_set_In.
  pose proof (list_of_set_NoDup [x; x]) as Hnd.
  pose proof (list_of_set_In [x; x]) as Hin.
  assert (Hall : forall y, In y (list_of_set [x; x]) -> y = x).
  { intros y Hy. apply Hin in Hy. simpl in Hy. intuition congruence. }
  destruct (list_of_set [x; x]) as [|a [|b l]].
  - exfalso. apply (proj2 (Hin x)). now left.
  - f_equal. apply Hall. now left.
  - exfalso. inversion Hnd as [|? ? Hnot _]; subst. apply Hnot.
    rewrite (Hall a), (Hall b); simpl; auto.
Qed.

(** C4: the worked example.  The record for the two-sentence text has the
    "Initialize" sentence as its only implementation pattern and its only
    common issue, the "optimize" sentence as its only performance tip,
    both sentences as game mechanics and no code snippet; among the issue
    keywords only "careful" occurs in the second sentence, inside
    "carefully". *)
Theorem demo_example :
  extract_key_insights lower demo_text (py "Demo")
  = mkInsights (py "Demo")
      [demo_initialize] [demo_optimize] [demo_optimize; demo_initialize]
      [demo_initialize] []
  /\ In demo_optimize
        (game_mechanics (extract_key_insights lower demo_text (py "Demo")))
  /\ In demo_initialize
        (game_mechanics (extract_key_insights lower demo_text (py "Demo")))
  /\ filter (fun keyword => contains keyword (strip (lower demo_initialize)))
            issue_keywords
     = [py "careful"]
  /\ occurs_in (py "careful") (py "carefully").
Proof using lower_ascii.
  assert (H : extract_key_insights lower demo_text (py "Demo")
              = mkInsights (py "Demo")
                  [demo_initialize] [demo_optimize]
                  [demo_optimize; demo_initialize] [demo_initialize] []).
  { rewrite extract_key_insights_ascii by (apply isascii_spec; reflexivity).
    vm_compute. reflexivity. }
  rewrite H. split; [reflexivity|].
  split; [simpl; auto|]. split; [simpl; auto|]. split.
  - rewrite lower_ascii by (apply isascii_spec; reflexivity).
    vm_compute. reflexivity.
  - apply contains_spec. reflexivity.
Qed.

(** C10: the classifier keeps repetitions.  A text holding a qualifying
    sentence twice gives a record whose [implementation_patterns] holds it
    twice, while the aggregate section of a report on that record holds it
    once. *)
Theorem repeated_sentence_kept_twice (label id : str) (segments : nat) :
  In repeated_sentence (re_split repeated_text)
  /\ implementation_patterns (extract_key_insights lower repeated_text label)
     = [repeated_sentence; repeated_sentence]
  /\ count_occ str_eq_dec
       (implementation_patterns (extract_key_insights lower repeated_text label))
       repeated_sentence = 2
  /\ aggregate_section list_of_set Implementation
       [mkInsightRecord (extract_key_insights lower repeated_text label)
                        id segments]
     = [repeated_sentence].
Proof using lower_ascii list_of_set_NoDup list_of_set_In.
  assert (H : implementation_patterns
                (extract_key_insights lower repeated_text label)
              = [repeated_sentence; repeated_sentence]).
  { rewrite extract_key_insights_ascii by (apply isascii_spec; reflexivity).
    rewrite extract_key_insights_eq. vm_compute. reflexivity. }
  split; [vm_compute; auto|]. split; [exact H|].
  split; [rewrite H; vm_compute; reflexivity|].
  rewrite aggregate_section_eq, pooled_eq. simpl. rewrite app_nil_r, H.
  now rewrite list_of_set_pair.
Qed.

End AsciiText.

(* ================================================================== *)
(** ** More on trimming and splitting *)

Lemma lstrip_length (s : str) : length (lstrip s) <= length s.
Proof.
  induction s as [|c s IH]; simpl; [lia|].
  destruct (isspace c); simpl; lia.
Qed.

Lemma strip_length (s : str) : length (strip s) <= length s.
Proof.
  unfold strip, rstrip. rewrite length_rev.
  pose proof (lstrip_length (rev (lstrip s))) as H1.
  rewrite length_rev in H1. pose proof (lstrip_length s). lia.
Qed.

Lemma split_pieces_lengths (text : str) :
  length (fst (split_pieces text)) <= length text
  /\ Forall (fun piece => length piece <= length text)
            (snd (split_pieces text)).
Proof.
  induction text as [|c text [IH1 IH2]]; simpl.
  - split; [lia | constructor].
  - assert (IH3 : Forall (fun piece => length piece <= S (length text))
                         (snd (split_pieces text))).
    { eapply Forall_impl; [|exact IH2]. simpl. intros; lia. }
    destruct (split_pieces text) as [piece pieces]; simpl in *.
    destruct (is_terminator c); simpl; split; try lia; auto.
Qed.

Lemma re_split_lengths (text : str) :
  Forall (fun piece => length piece <= length text) (re_split text).
Proof.
  unfold re_split. destruct (split_pieces_lengths text) as [H1 H2].
  destruct (split_pieces text); simpl in *. now constructor.
Qed.

Lemma re_split_length (text : str) :
  length (re_split text) = 1 + count_terminators text.
Proof.
  unfold re_split. rewrite <- split_pieces_length.
  now destruct (split_pieces text).
Qed.

Lemma split_pieces_join (a : str) (c : char) (b : str) :
  is_terminator c = true ->
  split_pieces (a ++ c :: b)
  = (fst (split_pieces a), snd (split_pieces a) ++ re_split b).
Proof.
  intros Hc. unfold re_split. induction a as [|x a IH]; simpl.
  - rewrite Hc. now destruct (split_pieces b).
  - rewrite IH. destruct (split_pieces a) as [piece pieces]; simpl.
    now destruct (is_terminator x).
Qed.

Lemma re_split_join (a : str) (c : char) (b : str) :
  is_terminator c = true ->
  re_split (a ++ c :: b) = re_split a ++ re_split b.
Proof.
  intros Hc. unfold re_split at 1 2. rewrite (split_pieces_join a c b Hc).
  now destruct (split_pieces a).
Qed.

Lemma occurs_in_lstrip (k s : str) :
  k <> [] -> begins_with_space k = false ->
  occurs_in k s -> occurs_in k (lstrip s).
Proof.
  intros Hne Hk. induction s as [|c s IH]; intros Hocc; simpl; [exact Hocc|].
  destruct (isspace c) eqn:E; [|exact Hocc].
  apply IH. destruct Hocc as [before [after H]].
  destruct before as [|x before]; simpl in H.
  - destruct k as [|y k]; [contradiction|].
    simpl in H, Hk. injection H as -> _. congruence.
  - injection H as _ H. now exists before, after.
Qed.

Lemma occurs_in_rev (k s : str) : occurs_in k s -> occurs_in (rev k) (rev s).
Proof.
  intros [before [after ->]]. exists (rev after), (rev before).
  now rewrite !rev_app_distr, app_assoc.
Qed.

(** Trimming keeps every occurrence of a word that neither begins nor ends
    with a whitespace character. *)
Lemma occurs_in_strip (k s : str) :
  k <> [] -> begins_with_space k = false -> ends_with_space k = false ->
  occurs_in k s -> occurs_in k (strip s).
Proof.
  intros Hne Hb He Hocc. unfold strip, rstrip.
  rewrite <- (rev_involutive k). apply occurs_in_rev.
  apply occurs_in_lstrip.
  - intros H. apply Hne. rewrite <- (rev_involutive k), H. reflexivity.
  - exact He.
  - apply occurs_in_rev. now apply occurs_in_lstrip.
Qed.

Lemma occurs_in_prefix (k extra s : str) :
  occurs_in (k ++ extra) s -> occurs_in k s.
Proof.
  intros [before [after ->]]. exists before, (extra ++ after).
  now rewrite <- app_assoc.
Qed.

(* ================================================================== *)
(** ** More on the classifier *)

Section ClassifierFacts.

Set Default Proof Using "Type".

Variable lower : str -> str.

Lemma filter_length_le {A : Type} (f : A -> bool) (l : list A) :
  length (filter f l) <= length l.
Proof.
  induction l as [|x l IH]; simpl; [lia|]. destruct (f x); simpl; lia.
Qed.

(** X1: joining two texts with a terminator concatenates, sequence by
    sequence, what the classifier finds in each. *)
Theorem extract_key_insights_join (a b label : str) (c : char) :
  is_terminator c = true ->
  (forall cat,
     sequence_of cat (extract_key_insights lower (a ++ c :: b) label)
     = sequence_of cat (extract_key_insights lower a label)
       ++ sequence_of cat (extract_key_insights lower b label))
  /\ code_snippets (extract_key_insights lower (a ++ c :: b) label)
     = code_snippets (extract_key_insights lower a label)
       ++ code_snippets (extract_key_insights lower b label).
Proof.
  intros Hc. split.
  - intros cat. rewrite !sequence_of_eq, (re_split_join a c b Hc).
    now rewrite filter_app, map_app.
  - rewrite !extract_key_insights_eq. simpl.
    rewrite (re_split_join a c b Hc). now rewrite filter_app, map_app.
Qed.

(** X2: an entry of a keyword category is longer than 20 characters and no
    longer than the text, so a text of 20 characters or fewer has no entry
    in any keyword category. *)
Theorem keyword_entries_length (text label : str) (cat : Category) :
  (forall entry,
     In entry (sequence_of cat (extract_key_insights lower text label)) ->
     20 < length entry <= length text)
  /\ (length text <= 20 ->
      sequence_of cat (extract_key_insights lower text label) = []).
Proof.
  assert (Hentry : forall entry,
            In entry (sequence_of cat (extract_key_insights lower text label)) ->
            20 < length entry <= length text).
  { intros entry Hin. rewrite sequence_of_eq in Hin.
    apply in_map_iff in Hin. destruct Hin as [sentence [<- Hin]].
    apply filter_In in Hin. destruct Hin as [Hin Hq].
    apply qualifies_spec in Hq. destruct Hq as [_ Hlen].
    split; [exact Hlen|].
    pose proof (re_split_lengths text) as Hall. rewrite Forall_forall in Hall.
    pose proof (Hall sentence Hin). pose proof (strip_length sentence). lia. }
  split; [exact Hentry|]. intros Hshort.
  destruct (sequence_of cat (extract_key_insights lower text label))
    as [|entry rest] eqn:E; [reflexivity|].
  exfalso. specialize (Hentry entry (or_introl eq_refl)). lia.
Qed.

(** X3: no sequence of the record has more entries than the text has
    candidate sentences, one more than its terminators. *)
Theorem entries_at_most_sentences (text label : str) :
  (forall cat,
     length (sequence_of cat (extract_key_insights lower text label))
     <= 1 + count_terminators text)
  /\ length (code_snippets (extract_key_insights lower text label))
     <= 1 + count_terminators text.
Proof.
  split.
  - intros cat. rewrite sequence_of_eq, length_map, <- re_split_length.
    apply filter_length_le.
  - rewrite extract_key_insights_eq. simpl.
    rewrite length_map, <- re_split_length. apply filter_length_le.
Qed.

(** X4: every entry of [code_snippets] holds one of the words const, let,
    function, var: trimming can remove the space that closes the token but
    not the word. *)
Theorem code_snippets_hold_a_word (text label entry : str) :
  In entry (code_snippets (extract_key_insights lower text label)) ->
  exists word, In word code_words /\ occurs_in word entry.
Proof.
  intros Hin. rewrite extract_key_insights_eq in Hin. simpl in Hin.
  apply in_map_iff in Hin. destruct Hin as [sentence [<- Hin]].
  apply filter_In in Hin. destruct Hin as [_ Htoken].
  apply has_code_token_spec in Htoken.
  assert (Hword : forall word,
            In word code_words -> occurs_in (word ++ py " ") sentence ->
            exists w, In w code_words /\ occurs_in w (strip sentence)).
  { intros word Hw Hocc. exists word. split; [exact Hw|].
    apply occurs_in_prefix in Hocc.
    unfold code_words in Hw. simpl in Hw.
    decompose [or] Hw; subst; try contradiction;
      (apply occurs_in_strip; [discriminate | reflexivity | reflexivity | exact Hocc]). }
  destruct Htoken as [H | [H | [H | H]]].
  - apply (Hword (py "const")); [simpl; auto | exact H].
  - apply (Hword (py "let")); [simpl; auto | exact H].
  - apply (Hword (py "function")); [simpl; auto 6 | exact H].
  - apply (Hword (py "var")); [simpl; auto 6 | exact H].
Qed.

End ClassifierFacts.

(* ================================================================== *)
(** ** Lower-casing ASCII text *)

Ltac decide_comparisons :=
  repeat match goal with
         | |- context [(?a <=? ?b)%N] => destruct (N.leb_spec a b); try lia
         | |- context [(?a =? ?b)%N] => destruct (N.eqb_spec a b); try lia
         end.

Lemma ascii_lower_char_cases (c : char) :
  ascii_lower_char c = c
  \/ ((65 <= c <= 90)%N /\ ascii_lower_char c = (c + 32)%N).
Proof.
  unfold ascii_lower_char.
  destruct (N.leb_spec 65 c); destruct (N.leb_spec c 90); simpl; auto.
Qed.

Lemma isspace_printable (c : char) : (33 <= c <= 132)%N -> isspace c = false.
Proof.
  intros H. unfold isspace. decide_comparisons; reflexivity.
Qed.

Lemma is_terminator_letter (c : char) :
  (64 <= c)%N -> is_terminator c = false.
Proof.
  intros H. unfold is_terminator. decide_comparisons; reflexivity.
Qed.

Lemma isspace_ascii_lower_char (c : char) :
  isspace (ascii_lower_char c) = isspace c.
Proof.
  destruct (ascii_lower_char_cases c) as [-> | [H ->]]; [reflexivity|].
  rewrite !isspace_printable by lia. reflexivity.
Qed.

Lemma is_terminator_ascii_lower_char (c : char) :
  is_terminator (ascii_lower_char c) = is_terminator c.
Proof.
  destruct (ascii_lower_char_cases c) as [-> | [H ->]]; [reflexivity|].
  rewrite !is_terminator_letter by lia. reflexivity.
Qed.

Lemma ascii_lower_char_idempotent (c : char) :
  ascii_lower_char (ascii_lower_char c) = ascii_lower_char c.
Proof.
  destruct (ascii_lower_char_cases c) as [H | [H E]]; [now rewrite !H|].
  rewrite E. unfold ascii_lower_char. decide_comparisons; reflexivity.
Qed.

Lemma ascii_lower_idempotent (s : str) :
  ascii_lower (ascii_lower s) = ascii_lower s.
Proof.
  unfold ascii_lower. rewrite map_map. apply map_ext.
  apply ascii_lower_char_idempotent.
Qed.

Lemma is_ascii_lower (s : str) : is_ascii s -> is_ascii (ascii_lower s).
Proof.
  unfold is_ascii, ascii_lower. rewrite !Forall_forall. intros H c Hc.
  apply in_map_iff in Hc. destruct Hc as [d [<- Hd]]. specialize (H d Hd).
  destruct (ascii_lower_char_cases d) as [-> | [Hr ->]]; lia.
Qed.

Lemma lstrip_ascii_lower (s : str) :
  lstrip (ascii_lower s) = ascii_lower (lstrip s).
Proof.
  induction s as [|c s IH]; simpl; [reflexivity|].
  rewrite isspace_ascii_lower_char. now destruct (isspace c).
Qed.

Lemma strip_ascii_lower (s : str) :
  strip (ascii_lower s) = ascii_lower (strip s).
Proof.
  unfold strip, rstrip. rewrite lstrip_ascii_lower.
  unfold ascii_lower at 1. rewrite <- map_rev.
  fold (ascii_lower (rev (lstrip s))). rewrite lstrip_ascii_lower.
  unfold ascii_lower. now rewrite map_rev.
Qed.

Lemma split_pieces_ascii_lower (text : str) :
  split_pieces (ascii_lower text)
  = (ascii_lower (fst (split_pieces text)),
     map ascii_lower (snd (split_pieces text))).
Proof.
  induction text as [|c text IH]; simpl; [reflexivity|].
  fold (ascii_lower text). rewrite IH, is_terminator_ascii_lower_char.
  destruct (split_pieces text) as [piece pieces]; simpl.
  now destruct (is_terminator c).
Qed.

Lemma re_split_ascii_lower (text : str) :
  re_split (ascii_lower text) = map ascii_lower (re_split text).
Proof.
  unfold re_split. rewrite split_pieces_ascii_lower.
  now destruct (split_pieces text).
Qed.

Lemma filter_map_comm {A B : Type} (f : B -> bool) (g : A -> B) (l : list A) :
  filter f (map g l) = map g (filter (fun x => f (g x)) l).
Proof.
  induction l as [|x l IH]; simpl; [reflexivity|].
  destruct (f (g x)); simpl; now rewrite IH.
Qed.

Lemma qualifies_ascii_lower (keywords : list str) (sentence : str) :
  qualifies ascii_lower keywords (ascii_lower sentence)
  = qualifies ascii_lower keywords sentence.
Proof.
  unfold qualifies.
  rewrite ascii_lower_idempotent, (strip_ascii_lower sentence).
  unfold ascii_lower at 2. now rewrite length_map.
Qed.

Section AsciiFacts.

Set Default Proof Using "Type".

Variable lower : str -> str.
Hypothesis lower_ascii : forall s, is_ascii s -> lower s = ascii_lower s.

(** X5: matching is case-insensitive on ASCII text: every entry of a keyword
    category, lower-cased, holds a keyword of the category. *)
Theorem keyword_entries_hold_a_keyword (text label entry : str)
    (cat : Category) :
  is_ascii text ->
  In entry (sequence_of cat (extract_key_insights lower text label)) ->
  exists keyword,
    In keyword (keywords_of cat) /\ occurs_in keyword (lower entry).
Proof using lower_ascii.
  intros Htext Hin. rewrite sequence_of_eq in Hin.
  apply in_map_iff in Hin. destruct Hin as [sentence [<- Hin]].
  apply filter_In in Hin. destruct Hin as [Hin Hq].
  pose proof (re_split_chars _ text Htext) as Hs.
  rewrite Forall_forall in Hs. specialize (Hs sentence Hin).
  apply qualifies_spec in Hq. destruct Hq as [[keyword [Hk Hocc]] _].
  exists keyword. split; [exact Hk|].
  rewrite (lower_ascii sentence Hs) in Hocc.
  rewrite strip_ascii_lower in Hocc.
  now rewrite lower_ascii by (apply is_ascii_strip; exact Hs).
Qed.

(** X6: lower-casing an ASCII text before classifying it lower-cases the
    entries of the keyword categories and changes nothing else in them:
    the same sentences are selected, in the same order. *)
Theorem lowercased_text_same_selection (text label : str) (cat : Category) :
  is_ascii text ->
  sequence_of cat (extract_key_insights lower (lower text) label)
  = map lower (sequence_of cat (extract_key_insights lower text label)).
Proof using lower_ascii.
  intros Htext. rewrite (lower_ascii text Htext).
  rewrite (extract_key_insights_ascii lower lower_ascii)
    by (apply is_ascii_lower; exact Htext).
  rewrite (extract_key_insights_ascii lower lower_ascii text) by exact Htext.
  rewrite !sequence_of_eq, re_split_ascii_lower, filter_map_comm.
  rewrite (filter_ext _ (qualifies ascii_lower (keywords_of cat)))
    by (intros s; apply qualifies_ascii_lower).
  rewrite !map_map. apply map_ext_in. intros s Hs.
  apply filter_In in Hs. destruct Hs as [Hs _].
  pose proof (re_split_chars _ text Htext) as Hall.
  rewrite Forall_forall in Hall. specialize (Hall s Hs).
  rewrite strip_ascii_lower.
  now rewrite lower_ascii by (apply is_ascii_strip; exact Hall).
Qed.

(** X7: entries are stable: a stored entry of a keyword category of an ASCII
    text, classified on its own, is the single entry of that category
    again, unchanged. *)
Theorem keyword_entries_are_stable (text label entry again : str)
    (cat : Category) :
  is_ascii text ->
  In entry (sequence_of cat (extract_key_insights lower text label)) ->
  sequence_of cat (extract_key_insights lower entry again) = [entry].
Proof using lower_ascii.
  intros Htext Hin. rewrite sequence_of_eq in Hin.
  apply in_map_iff in Hin. destruct Hin as [piece [<- Hin]].
  apply filter_In in Hin. destruct Hin as [Hin Hq].
  pose proof (re_split_chars _ text Htext) as Hs.
  rewrite Forall_forall in Hs. specialize (Hs piece Hin).
  assert (Hfree : terminator_free (strip piece)).
  { pose proof (re_split_free text) as Hall. rewrite Forall_forall in Hall.
    intros c Hc. apply (Hall piece Hin). now apply In_strip. }
  assert (Hsame : qualifies lower (keywords_of cat) (strip piece) = true).
  { unfold qualifies in *. rewrite strip_idempotent.
    rewrite (lower_ascii (strip piece)) by (apply is_ascii_strip; exact Hs).
    rewrite <- strip_ascii_lower, strip_idempotent.
    now rewrite <- (lower_ascii piece Hs). }
  rewrite sequence_of_eq. unfold re_split.
  rewrite (split_pieces_no_terminator _ Hfree). cbn [filter].
  rewrite Hsame. cbn [map]. now rewrite strip_idempotent.
Qed.

End AsciiFacts.

(* ================================================================== *)
(** ** Strings as lines *)

Lemma single_line_spec (s : str) : single_line s = true <-> ~ In 10%N s.
Proof.
  unfold single_line. rewrite negb_true_iff. split.
  - intros H Hin.
    assert (Ht : existsb (N.eqb 10) s = true)
      by (apply existsb_exists; exists 10%N; split; [exact Hin | reflexivity]).
    congruence.
  - intros H. destruct (existsb (N.eqb 10) s) eqn:E; [|reflexivity].
    exfalso. apply H. apply existsb_exists in E.
    destruct E as [c [Hc Heq]]. apply N.eqb_eq in Heq. now subst.
Qed.

Lemma single_line_app (a b : str) :
  single_line (a ++ b) = single_line a && single_line b.
Proof.
  unfold single_line. rewrite existsb_app. now rewrite negb_orb.
Qed.

Lemma split_lines_line (line rest : str) :
  single_line line = true ->
  split_lines (line ++ 10%N :: rest) = (line, lines_of rest).
Proof.
  unfold lines_of. induction line as [|c line IH]; intros H.
  - cbn. now destruct (split_lines rest).
  - apply single_line_spec in H. cbn [app split_lines].
    rewrite IH by (apply single_line_spec; intros Hin; apply H; now right).
    destruct (N.eqb_spec c 10) as [-> | Hc]; [|reflexivity].
    exfalso. apply H. now left.
Qed.

Lemma lines_of_unlines (lines : list str) (rest : str) :
  forallb single_line lines = true ->
  lines_of (unlines lines ++ rest) = lines ++ lines_of rest.
Proof.
  induction lines as [|line lines IH]; intros H; [reflexivity|].
  cbn [forallb] in H. rewrite andb_true_iff in H. destruct H as [Hl Hs].
  unfold unlines. cbn [map concat]. fold (unlines lines).
  unfold nl. rewrite <- !app_assoc. cbn [app].
  unfold lines_of at 1. rewrite (split_lines_line _ _ Hl).
  now rewrite (IH Hs).
Qed.

Lemma unlines_app (a b : list str) : unlines (a ++ b) = unlines a ++ unlines b.
Proof.
  unfold unlines. now rewrite map_app, concat_app.
Qed.

Lemma unlines_bullet_lines (items : list str) :
  concat (map bullet items) = unlines (map bullet_line items).
Proof.
  unfold unlines. rewrite map_map. reflexivity.
Qed.

Lemma lines_after_found (heading : str) (before rest : list str) :
  Forall (fun line => line <> heading) before ->
  lines_after heading (before ++ heading :: rest) = rest.
Proof.
  induction 1 as [|line before Hline _ IH]; cbn [app lines_after].
  - destruct (str_eq_dec heading heading); [reflexivity | contradiction].
  - destruct (str_eq_dec line heading); [contradiction | exact IH].
Qed.

Lemma lines_until_heading_found (body : list str) (next : str)
    (rest : list str) :
  Forall (fun line => is_heading_line line = false) body ->
  is_heading_line next = true ->
  lines_until_heading (body ++ next :: rest) = body.
Proof.
  intros Hbody Hnext.
  induction Hbody as [|line body Hline _ IH]; cbn [app lines_until_heading].
  - now rewrite Hnext.
  - rewrite Hline. now rewrite IH.
Qed.

Lemma section_body_no_heading (items : list str) :
  Forall (fun line => is_heading_line line = false) (section_body items).
Proof.
  unfold section_body. constructor; [reflexivity|].
  apply Forall_app. split; [|now constructor].
  apply Forall_forall. intros line Hin. apply in_map_iff in Hin.
  now destruct Hin as [item [<- _]].
Qed.

Lemma section_body_bullets (items : list str) :
  filter is_bullet_line (section_body items) = map bullet_line items.
Proof.
  unfold section_body. cbn [filter is_bullet_line startswith py map
                            list_ascii_of_string].
  rewrite filter_app. cbn. rewrite app_nil_r.
  induction items as [|item items IH]; [reflexivity|].
  cbn [map filter]. now rewrite IH.
Qed.

Lemma heading_line_is_heading (cat : Category) :
  is_heading_line (heading_line cat) = true.
Proof.
  now destruct cat.
Qed.

Lemma not_heading_differs (cat : Category) (lines : list str) :
  Forall (fun line => is_heading_line line = false) lines ->
  Forall (fun line => line <> heading_line cat) lines.
Proof.
  intros H. eapply Forall_impl; [|exact H]. simpl. intros line Hl ->.
  rewrite heading_line_is_heading in Hl. discriminate.
Qed.

Lemma heading_lines_differ (a b : Category) :
  a <> b -> heading_line a <> heading_line b.
Proof.
  intros Hab E. destruct a, b; try contradiction; vm_compute in E;
    discriminate E.
Qed.

Lemma header_lines_differ (now : str) (n : nat) (cat : Category) :
  Forall (fun line => line <> heading_line cat) (header_lines now n).
Proof.
  unfold header_lines.
  repeat constructor; intros E; destruct cat; vm_compute in E; discriminate E.
Qed.

Lemma single_line_cons (c : char) (s : str) :
  c <> 10%N -> single_line (c :: s) = single_line s.
Proof.
  intros Hc. unfold single_line. cbn [existsb].
  destruct (N.eqb_spec 10 c) as [E | _]; [now subst | reflexivity].
Qed.

Lemma digits_single_line (u : Decimal.uint) : single_line (digits u) = true.
Proof.
  induction u; cbn [digits]; [reflexivity | ..];
    now rewrite single_line_cons by discriminate.
Qed.

Lemma header_lines_single (now : str) (n : nat) :
  single_line now = true ->
  forallb single_line (header_lines now n) = true.
Proof.
  intros H. unfold header_lines. cbn [forallb].
  rewrite !single_line_app, H. unfold str_of_nat.
  rewrite digits_single_line. reflexivity.
Qed.

Lemma section_body_single (items : list str) :
  forallb single_line items = true ->
  forallb single_line (section_body items) = true.
Proof.
  intros H. unfold section_body. cbn [forallb]. rewrite forallb_app.
  cbn. rewrite andb_true_r. rewrite forallb_forall in *.
  intros line Hin. apply in_map_iff in Hin. destruct Hin as [item [<- Hi]].
  unfold bullet_line. rewrite single_line_app. now rewrite (H item Hi).
Qed.

(* ================================================================== *)
(** ** More on the orchestration loop and the report *)

Section PipelineFacts.

Set Default Proof Using "Type".

Variable lower : str -> str.
Variable list_of_set : list str -> list str.
Variable now : str.
Variable Transcript : Type.
Variable fetch : str -> option Transcript.
Variable format_transcript : Transcript -> str.
Variable segment_count : Transcript -> nat.

Hypothesis list_of_set_NoDup : forall l, NoDup (list_of_set l).
Hypothesis list_of_set_In : forall l x, In x (list_of_set l) <-> In x l.

Local Notation "'run'" :=
  (analyze_videos lower Transcript fetch format_transcript segment_count).

Lemma title_extract_key_insights (text label : str) :
  title (extract_key_insights lower text label) = label.
Proof.
  now rewrite extract_key_insights_eq.
Qed.

Lemma run_cons (id label : str) (rest : list (str * str)) :
  run ((id, label) :: rest)
  = match fetch id with
    | Some transcript =>
        [mkInsightRecord
           (extract_key_insights lower (format_transcript transcript) label)
           id (segment_count transcript)]
    | None => []
    end ++ run rest.
Proof.
  rewrite analyze_videos_cons. unfold analyze_video.
  now destruct (fetch id).
Qed.

Lemma run_all_fail (catalog : list (str * str)) :
  (forall entry, In entry catalog -> fetch (fst entry) = None) ->
  run catalog = [].
Proof.
  induction catalog as [|[id label] rest IH]; intros H; [reflexivity|].
  pose proof (H (id, label) (or_introl eq_refl)) as Hid. simpl in Hid.
  rewrite run_cons, Hid. simpl.
  apply IH. intros entry Hin. apply H. now right.
Qed.

(** X8: the collection holds one record for each catalog entry whose fetch
    returns, in catalog order, carrying the entry's identifier and label,
    the classification of the formatted transcript and its segment
    count. *)
Theorem analyze_videos_keeps_successes (catalog : list (str * str)) :
  map (fun video : InsightRecord => (video_id video, title video))
      (run catalog)
  = filter (fetch_succeeds fetch) catalog
  /\ (forall video : InsightRecord,
        In video (run catalog) ->
        In (video_id video, title video) catalog
        /\ exists transcript,
             fetch (video_id video) = Some transcript
             /\ classified video
                = extract_key_insights lower (format_transcript transcript)
                                       (title video)
             /\ transcript_length video = segment_count transcript)
  /\ length (run catalog) <= length catalog.
Proof.
  induction catalog as [|[id label] rest [IH1 [IH2 IH3]]].
  - split; [reflexivity|]. split; [intros video []|]. simpl. lia.
  - rewrite run_cons. unfold fetch_succeeds at 1. cbn [filter fst].
    fold (fetch_succeeds fetch).
    destruct (fetch id) as [transcript|] eqn:E.
    + split; [|split].
      * cbn [app map video_id classified]. rewrite IH1.
        now rewrite title_extract_key_insights.
      * intros video [<- | Hin].
        -- cbn [video_id classified]. rewrite title_extract_key_insights.
           split; [now left|]. exists transcript. now repeat split.
        -- destruct (IH2 video Hin) as [Hcat Hrec]. split; [now right | exact Hrec].
      * simpl. lia.
    + split; [|split].
      * exact IH1.
      * intros video Hin. destruct (IH2 video Hin) as [Hcat Hrec].
        split; [now right | exact Hrec].
      * simpl. lia.
Qed.

(** X9: when no fetch of the catalog returns, the collection is empty and the
    report is the fixed skeleton: the header counting 0 videos, the five
    headings with nothing under them, and the closing text. *)
Theorem all_fetches_fail (catalog : list (str * str)) :
  (forall entry, In entry catalog -> fetch (fst entry) = None) ->
  run catalog = []
  /\ generate_markdown_report list_of_set now (run catalog)
     = report_header now 0
       ++ performance_heading ++ game_heading ++ issues_heading
       ++ summaries_heading ++ static_trailer.
Proof using list_of_set_In.
  intros H. rewrite (run_all_fail catalog H). split; [reflexivity|].
  rewrite report_layout.
  rewrite !(aggregate_section_nil list_of_set list_of_set_In). reflexivity.
Qed.

Lemma list_of_set_length (l : list str) :
  length (list_of_set l) = length (distinct l).
Proof using list_of_set_NoDup list_of_set_In.
  apply Permutation_length. apply NoDup_Permutation.
  - apply list_of_set_NoDup.
  - apply distinct_NoDup.
  - intros x. rewrite list_of_set_In, distinct_In. reflexivity.
Qed.

Lemma In_pooled (field : Insights -> list str)
    (insights_data : list InsightRecord) (s : str) :
  In s (pooled field insights_data) <->
  exists video : InsightRecord,
    In video insights_data /\ In s (field (classified video)).
Proof.
  rewrite pooled_eq, in_flat_map. reflexivity.
Qed.

Lemma aggregate_section_without_code_snippets
    (insights_data : list InsightRecord) (cat : Category) :
  aggregate_section list_of_set cat (map without_code_snippets insights_data)
  = aggregate_section list_of_set cat insights_data.
Proof.
  rewrite !aggregate_section_eq, !pooled_eq. do 2 f_equal.
  induction insights_data as [|video data IH]; simpl; [reflexivity|].
  rewrite IH. f_equal. now destruct cat.
Qed.

Lemma report_without_code_snippets (insights_data : list InsightRecord) :
  generate_markdown_report list_of_set now
    (map without_code_snippets insights_data)
  = generate_markdown_report list_of_set now insights_data.
Proof.
  rewrite !report_layout, !aggregate_section_without_code_snippets.
  rewrite length_map, map_map. reflexivity.
Qed.

(** X12: the report does not read [code_snippets]: two collections that agree
    on every other key of every record give the same report. *)
Theorem report_ignores_code_snippets (first second : list InsightRecord) :
  map without_code_snippets first = map without_code_snippets second ->
  generate_markdown_report list_of_set now first
  = generate_markdown_report list_of_set now second.
Proof.
  intros H. rewrite <- (report_without_code_snippets first).
  rewrite <- (report_without_code_snippets second). now rewrite H.
Qed.

Lemma run_records (catalog : list (str * str)) (video : InsightRecord) :
  In video (run catalog) ->
  exists id label transcript,
    In (id, label) catalog /\ fetch id = Some transcript
    /\ classified video
       = extract_key_insights lower (format_transcript transcript) label.
Proof.
  induction catalog as [|[id label] rest IH]; [intros []|].
  rewrite run_cons. intros Hin. apply in_app_or in Hin.
  destruct Hin as [Hin | Hin].
  - destruct (fetch id) as [transcript|] eqn:E; [|destruct Hin].
    destruct Hin as [<- | []]. exists id, label, transcript.
    split; [now left|]. now split.
  - destruct (IH Hin) as [id' [label' [transcript [Hc H]]]].
    exists id', label', transcript. split; [now right | exact H].
Qed.

Lemma line_breaks_app (a b : str) :
  line_breaks (a ++ b) = line_breaks a + line_breaks b.
Proof.
  unfold line_breaks. apply count_occ_app.
Qed.

Lemma line_breaks_bullet (item : str) :
  line_breaks (bullet item) = S (line_breaks item).
Proof.
  unfold bullet. rewrite !line_breaks_app.
  change (line_breaks (py "- ")) with 0. change (line_breaks nl) with 1. lia.
Qed.

Lemma line_breaks_bullets (items : list str) :
  (forall item, In item items -> ~ In 10%N item) ->
  line_breaks (concat (map bullet items)) = length items.
Proof.
  induction items as [|item items IH]; intros H; [reflexivity|].
  cbn [map concat length].
  rewrite line_breaks_app, line_breaks_bullet, IH
    by (intros i Hi; apply H; now right).
  assert (Hitem : line_breaks item = 0).
  { unfold line_breaks. apply count_occ_not_In. apply H. now left. }
  rewrite Hitem. reflexivity.
Qed.

(** X13: when no sentence of a category holds a line break, the text of its
    aggregate section has exactly one line for each bullet, so at most 10
    lines. *)
Theorem aggregate_section_lines (insights_data : list InsightRecord)
    (cat : Category) :
  (forall (video : InsightRecord) sentence,
     In video insights_data ->
     In sentence (sequence_of cat (classified video)) ->
     ~ In 10%N sentence) ->
  line_breaks
    (concat (map bullet (aggregate_section list_of_set cat insights_data)))
  = length (aggregate_section list_of_set cat insights_data)
  /\ line_breaks
       (concat (map bullet (aggregate_section list_of_set cat insights_data)))
     <= 10.
Proof using list_of_set_In.
  intros Hclean.
  assert (H : line_breaks
                (concat (map bullet
                           (aggregate_section list_of_set cat insights_data)))
              = length (aggregate_section list_of_set cat insights_data)).
  { apply line_breaks_bullets. intros item Hin.
    rewrite aggregate_section_eq in Hin. apply In_firstn_of in Hin.
    apply (proj1 (list_of_set_In _ _)) in Hin. apply In_pooled in Hin.
    destruct Hin as [video [Hv Hs]]. exact (Hclean video item Hv Hs). }
  split; [exact H|]. rewrite H. apply aggregate_section_length.
Qed.

(* ------------------------------------------------------------------ *)
(** *** The report read back as lines *)

Lemma lines_after_here (heading : str) (rest : list str) :
  lines_after heading (heading :: rest) = rest.
Proof.
  cbn [lines_after].
  destruct (str_eq_dec heading heading); [reflexivity | contradiction].
Qed.

Lemma lines_after_skip_line (heading line : str) (rest : list str) :
  line <> heading ->
  lines_after heading (line :: rest) = lines_after heading rest.
Proof.
  intros H. cbn [lines_after].
  destruct (str_eq_dec line heading); [contradiction | reflexivity].
Qed.

Lemma lines_after_skip_block (heading : str) (block rest : list str) :
  Forall (fun line => line <> heading) block ->
  lines_after heading (block ++ rest) = lines_after heading rest.
Proof.
  induction 1 as [|line block Hline _ IH]; [reflexivity|].
  cbn [app]. now rewrite lines_after_skip_line.
Qed.

Lemma unlines_section_body (items : list str) :
  unlines (section_body items) = nl ++ unlines (map bullet_line items) ++ nl.
Proof.
  unfold section_body.
  change ([] :: map bullet_line items ++ [[]])
    with ([[]] ++ map bullet_line items ++ [[]]).
  rewrite !unlines_app. reflexivity.
Qed.

Lemma report_header_unlines (n : nat) :
  report_header now n
  = unlines (header_lines now n)
    ++ unlines [heading_line Implementation] ++ nl.
Proof.
  unfold report_header, header_lines, unlines, ln.
  cbn [map concat]. rewrite <- !app_assoc. reflexivity.
Qed.

Lemma report_is_unlines (insights_data : list InsightRecord) :
  generate_markdown_report list_of_set now insights_data
  = unlines (report_lines list_of_set now insights_data)
    ++ concat (map video_summary insights_data) ++ static_trailer.
Proof.
  rewrite report_layout, report_header_unlines. unfold report_lines.
  rewrite !unlines_app, !unlines_section_body, !unlines_bullet_lines.
  change performance_heading
    with (nl ++ unlines [heading_line Performance] ++ nl).
  change game_heading with (nl ++ unlines [heading_line GameMechanics] ++ nl).
  change issues_heading with (nl ++ unlines [heading_line CommonIssues] ++ nl).
  change summaries_heading with (nl ++ unlines [summaries_line; []]).
  rewrite <- !app_assoc. reflexivity.
Qed.

Lemma sequence_of_in_all (cat : Category) (video : InsightRecord) (s : str) :
  In s (sequence_of cat (classified video)) ->
  In s (implementation_patterns video ++ performance_tips video
        ++ game_mechanics video ++ common_issues video).
Proof.
  intros H. rewrite !in_app_iff. destruct cat; simpl in H; auto.
Qed.

Lemma items_single_line (insights_data : list InsightRecord) (cat : Category) :
  single_line_records insights_data = true ->
  forallb single_line (aggregate_section list_of_set cat insights_data) = true.
Proof using list_of_set_In.
  unfold single_line_records. rewrite !forallb_forall. intros H item Hin.
  rewrite aggregate_section_eq in Hin. apply In_firstn_of in Hin.
  apply (proj1 (list_of_set_In _ _)) in Hin. apply In_pooled in Hin.
  destruct Hin as [video [Hv Hs]]. specialize (H video Hv).
  rewrite forallb_forall in H. apply H. now apply (sequence_of_in_all cat).
Qed.

Lemma report_lines_single (insights_data : list InsightRecord) :
  single_line now = true ->
  single_line_records insights_data = true ->
  forallb single_line (report_lines list_of_set now insights_data) = true.
Proof using list_of_set_In.
  intros Hnow Hdata. unfold report_lines. rewrite !forallb_app.
  rewrite (header_lines_single now _ Hnow).
  rewrite !section_body_single by (apply items_single_line; exact Hdata).
  reflexivity.
Qed.

(** With a time stamp and sentences that hold no line break, the section
    of a category read back from the markdown string is a blank line, one
    bullet line for each item the loop writes, and a blank line. *)
Lemma report_section_lines (insights_data : list InsightRecord)
    (cat : Category) :
  single_line now = true ->
  single_line_records insights_data = true ->
  section_lines cat
    (generate_markdown_report list_of_set now insights_data)
  = section_body (aggregate_section list_of_set cat insights_data).
Proof using list_of_set_In.
  intros Hnow Hdata. unfold section_lines.
  rewrite report_is_unlines.
  rewrite lines_of_unlines by (apply report_lines_single; assumption).
  unfold report_lines. rewrite <- !app_assoc. cbn [app].
  set (rest := lines_of (concat (map video_summary insights_data)
                         ++ static_trailer)).
  pose proof (fun c => header_lines_differ now (length insights_data) c)
    as Hheader.
  pose proof (fun c items =>
                not_heading_differs c _ (section_body_no_heading items))
    as Hbody.
  destruct cat.
  - rewrite lines_after_skip_block by apply Hheader.
    rewrite lines_after_here.
    apply lines_until_heading_found;
      [apply section_body_no_heading | reflexivity].
  - rewrite lines_after_skip_block by apply Hheader.
    rewrite lines_after_skip_line by (apply heading_lines_differ; discriminate).
    rewrite lines_after_skip_block by apply Hbody.
    rewrite lines_after_here.
    apply lines_until_heading_found;
      [apply section_body_no_heading | reflexivity].
  - rewrite lines_after_skip_block by apply Hheader.
    rewrite lines_after_skip_line by (apply heading_lines_differ; discriminate).
    rewrite lines_after_skip_block by apply Hbody.
    rewrite lines_after_skip_line by (apply heading_lines_differ; discriminate).
    rewrite lines_after_skip_block by apply Hbody.
    rewrite lines_after_here.
    apply lines_until_heading_found;
      [apply section_body_no_heading | reflexivity].
  - rewrite lines_after_skip_block by apply Hheader.
    rewrite lines_after_skip_line by (apply heading_lines_differ; discriminate).
    rewrite lines_after_skip_block by apply Hbody.
    rewrite lines_after_skip_line by (apply heading_lines_differ; discriminate).
    rewrite lines_after_skip_block by apply Hbody.
    rewrite lines_after_skip_line by (apply heading_lines_differ; discriminate).
    rewrite lines_after_skip_block by apply Hbody.
    rewrite lines_after_here.
    apply lines_until_heading_found;
      [apply section_body_no_heading | reflexivity].
Qed.

Lemma report_section_bullets (insights_data : list InsightRecord)
    (cat : Category) :
  single_line now = true ->
  single_line_records insights_data = true ->
  section_bullets cat
    (generate_markdown_report list_of_set now insights_data)
  = map bullet_line (aggregate_section list_of_set cat insights_data).
Proof using list_of_set_In.
  intros Hnow Hdata. unfold section_bullets.
  rewrite report_section_lines by assumption. apply section_body_bullets.
Qed.

Lemma bullet_line_injective (a b : str) :
  bullet_line a = bullet_line b -> a = b.
Proof.
  unfold bullet_line. apply app_inv_head.
Qed.

Lemma NoDup_map_bullet_line (items : list str) :
  NoDup items -> NoDup (map bullet_line items).
Proof.
  induction 1 as [|x l Hx Hl IH]; cbn [map]; constructor; [|exact IH].
  intros Hin. apply in_map_iff in Hin. destruct Hin as [y [Hy Hin]].
  apply bullet_line_injective in Hy. now subst.
Qed.

(** C5, as the code has it: the report is the header, four aggregate
    sections, the summaries and the closing text, and into each section
    the loop writes at most 10 bullets, each a sentence copied as it is.
    When the time stamp and the sentences hold no line break, the section
    read back from the markdown string has exactly those bullets, so at
    most 10. *)
Theorem report_sections_at_most_ten_bullets
    (insights_data : list InsightRecord) :
  generate_markdown_report list_of_set now insights_data
  = report_header now (length insights_data)
    ++ concat (map bullet
                 (aggregate_section list_of_set Implementation insights_data))
    ++ performance_heading
    ++ concat (map bullet
                 (aggregate_section list_of_set Performance insights_data))
    ++ game_heading
    ++ concat (map bullet
                 (aggregate_section list_of_set GameMechanics insights_data))
    ++ issues_heading
    ++ concat (map bullet
                 (aggregate_section list_of_set CommonIssues insights_data))
    ++ summaries_heading
    ++ concat (map video_summary insights_data)
    ++ static_trailer
  /\ (forall cat,
        length (aggregate_section list_of_set cat insights_data) <= 10)
  /\ (single_line now = true ->
      single_line_records insights_data = true ->
      forall cat,
        section_bullets cat
          (generate_markdown_report list_of_set now insights_data)
        = map bullet_line (aggregate_section list_of_set cat insights_data)
        /\ length (section_bullets cat
                     (generate_markdown_report list_of_set now insights_data))
           <= 10).
Proof using list_of_set_In.
  split; [apply report_layout|]. split; [intros; apply aggregate_section_length|].
  intros Hnow Hdata cat.
  rewrite (report_section_bullets insights_data cat Hnow Hdata).
  split; [reflexivity|]. rewrite length_map. apply aggregate_section_length.
Qed.

(** C6, as the code has it: each aggregate section is written from the
    first 10 of a listing of the SET of the sentences pooled over all
    records, so the sentences written to a section are pairwise distinct
    and a sentence that several records hold is written at most once.
    When the time stamp and the sentences hold no line break, the section
    read back from the markdown string holds no two equal bullets. *)
Theorem report_sections_deduplicated (insights_data : list InsightRecord)
    (cat : Category) :
  generate_markdown_report list_of_set now insights_data
  = report_header now (length insights_data)
    ++ concat (map bullet
                 (aggregate_section list_of_set Implementation insights_data))
    ++ performance_heading
    ++ concat (map bullet
                 (aggregate_section list_of_set Performance insights_data))
    ++ game_heading
    ++ concat (map bullet
                 (aggregate_section list_of_set GameMechanics insights_data))
    ++ issues_heading
    ++ concat (map bullet
                 (aggregate_section list_of_set CommonIssues insights_data))
    ++ summaries_heading
    ++ concat (map video_summary insights_data)
    ++ static_trailer
  /\ aggregate_section list_of_set cat insights_data
     = firstn 10 (list_of_set
                    (flat_map (fun video => sequence_of cat (classified video))
                              insights_data))
  /\ NoDup (aggregate_section list_of_set cat insights_data)
  /\ (forall sentence,
        count_occ str_eq_dec (aggregate_section list_of_set cat insights_data)
                  sentence <= 1)
  /\ (single_line now = true ->
      single_line_records insights_data = true ->
      NoDup (section_bullets cat
               (generate_markdown_report list_of_set now insights_data))
      /\ forall sentence,
           count_occ str_eq_dec
             (section_bullets cat
                (generate_markdown_report list_of_set now insights_data))
             (bullet_line sentence) <= 1).
Proof using list_of_set_NoDup list_of_set_In.
  pose proof (aggregate_section_NoDup list_of_set list_of_set_NoDup cat
                insights_data) as Hitems.
  split; [apply report_layout|].
  split; [now rewrite aggregate_section_eq, pooled_eq|].
  split; [exact Hitems|].
  split; [intros sentence; now apply (proj1 (NoDup_count_occ str_eq_dec _))|].
  intros Hnow Hdata.
  rewrite (report_section_bullets insights_data cat Hnow Hdata).
  assert (Hlines : NoDup (map bullet_line
                            (aggregate_section list_of_set cat insights_data)))
    by (apply NoDup_map_bullet_line; exact Hitems).
  split; [exact Hlines|].
  intros sentence. now apply (proj1 (NoDup_count_occ str_eq_dec _)).
Qed.

(** X10: with a time stamp and sentences that hold no line break, the
    number of bullets in an aggregate section of the markdown string is
    min(10, number of distinct sentences the records hold in the
    category). *)
Theorem section_bullet_count (insights_data : list InsightRecord)
    (cat : Category) :
  single_line now = true ->
  single_line_records insights_data = true ->
  length (section_bullets cat
            (generate_markdown_report list_of_set now insights_data))
  = Nat.min 10 (length (distinct (pooled (sequence_of cat) insights_data))).
Proof using list_of_set_NoDup list_of_set_In.
  intros Hnow Hdata.
  rewrite (report_section_bullets insights_data cat Hnow Hdata), length_map.
  rewrite aggregate_section_eq, length_firstn. now rewrite list_of_set_length.
Qed.

(** X11: with a time stamp and sentences that hold no line break, every
    bullet of an aggregate section of the markdown string is "- " followed
    by a sentence that some record holds in that category; when the records
    hold at most 10 distinct sentences of the category, each of them has
    its bullet in the section. *)
Theorem section_bullets_are_sentences (insights_data : list InsightRecord)
    (cat : Category) :
  single_line now = true ->
  single_line_records insights_data = true ->
  (forall line,
     In line (section_bullets cat
                (generate_markdown_report list_of_set now insights_data)) ->
     exists (video : InsightRecord) sentence,
       In video insights_data
       /\ In sentence (sequence_of cat (classified video))
       /\ line = bullet_line sentence)
  /\ (length (distinct (pooled (sequence_of cat) insights_data)) <= 10 ->
      forall (video : InsightRecord) sentence,
        In video insights_data ->
        In sentence (sequence_of cat (classified video)) ->
        In (bullet_line sentence)
           (section_bullets cat
              (generate_markdown_report list_of_set now insights_data))).
Proof using list_of_set_NoDup list_of_set_In.
  intros Hnow Hdata.
  rewrite (report_section_bullets insights_data cat Hnow Hdata). split.
  - intros line Hin. apply in_map_iff in Hin.
    destruct Hin as [sentence [<- Hin]].
    rewrite aggregate_section_eq in Hin. apply In_firstn_of in Hin.
    apply (proj1 (list_of_set_In _ _)) in Hin. apply In_pooled in Hin.
    destruct Hin as [video [Hv Hs]]. now exists video, sentence.
  - intros Hfew video sentence Hv Hs. apply in_map.
    rewrite aggregate_section_eq.
    rewrite firstn_all2 by (rewrite list_of_set_length; exact Hfew).
    apply (proj2 (list_of_set_In _ _)). apply In_pooled. now exists video.
Qed.

Lemma entries_single_line (text label : str) (cat : Category) (entry : str) :
  single_line text = true ->
  In entry (sequence_of cat (extract_key_insights lower text label)) ->
  single_line entry = true.
Proof.
  intros Htext Hin. apply single_line_spec. intros Hnl.
  apply single_line_spec in Htext. apply Htext.
  rewrite sequence_of_eq in Hin. apply in_map_iff in Hin.
  destruct Hin as [piece [<- Hin]]. apply filter_In in Hin.
  destruct Hin as [Hin _]. apply In_strip in Hnl.
  assert (Hall : Forall (fun c => In c text) text)
    by (apply Forall_forall; auto).
  pose proof (re_split_chars _ text Hall) as Hpieces.
  rewrite Forall_forall in Hpieces. specialize (Hpieces piece Hin).
  rewrite Forall_forall in Hpieces. now apply Hpieces.
Qed.

Lemma run_single_line (catalog : list (str * str)) :
  (forall entry transcript,
     In entry catalog -> fetch (fst entry) = Some transcript ->
     single_line (format_transcript transcript) = true) ->
  single_line_records (run catalog) = true.
Proof.
  intros H. unfold single_line_records. apply forallb_forall.
  intros video Hvideo.
  destruct (run_records catalog video Hvideo)
    as [id [label [transcript [Hcat [Hfetch Hrec]]]]].
  pose proof (H (id, label) transcript Hcat Hfetch) as Htext.
  apply forallb_forall. intros s Hs. rewrite !in_app_iff in Hs.
  rewrite Hrec in Hs.
  destruct Hs as [Hs | [Hs | [Hs | Hs]]].
  - now apply (entries_single_line _ label Implementation s Htext).
  - now apply (entries_single_line _ label Performance s Htext).
  - now apply (entries_single_line _ label GameMechanics s Htext).
  - now apply (entries_single_line _ label CommonIssues s Htext).
Qed.

(** X14: from catalog to report.  When the time stamp and the formatted
    transcripts hold no line break, every bullet of an aggregate section
    of the markdown string built from the collected records is "- "
    followed by the trimmed form of a sentence of the formatted transcript
    of some catalog entry whose fetch returned, a sentence that qualifies
    for the category; the bullet line is longer than 22 characters. *)
Theorem report_bullets_come_from_transcripts (catalog : list (str * str))
    (cat : Category) (line : str) :
  single_line now = true ->
  (forall entry transcript,
     In entry catalog -> fetch (fst entry) = Some transcript ->
     single_line (format_transcript transcript) = true) ->
  In line (section_bullets cat
             (generate_markdown_report list_of_set now (run catalog))) ->
  22 < length line
  /\ exists id label transcript piece,
       In (id, label) catalog /\ fetch id = Some transcript
       /\ In piece (re_split (format_transcript transcript))
       /\ qualifies lower (keywords_of cat) piece = true
       /\ line = bullet_line (strip piece).
Proof using list_of_set_In.
  intros Hnow Hclean Hin.
  rewrite (report_section_bullets _ cat Hnow (run_single_line catalog Hclean))
    in Hin.
  apply in_map_iff in Hin. destruct Hin as [sentence [<- Hin]].
  rewrite aggregate_section_eq in Hin.
  apply In_firstn_of in Hin. apply (proj1 (list_of_set_In _ _)) in Hin.
  apply In_pooled in Hin. destruct Hin as [video [Hvideo Hs]].
  destruct (run_records catalog video Hvideo)
    as [id [label [transcript [Hcat [Hfetch Hrec]]]]].
  rewrite Hrec, sequence_of_eq in Hs.
  apply in_map_iff in Hs. destruct Hs as [piece [<- Hpiece]].
  apply filter_In in Hpiece. destruct Hpiece as [Hpiece Hq].
  split.
  - apply qualifies_spec in Hq. destruct Hq as [_ Hlen].
    unfold bullet_line. rewrite length_app. cbn. lia.
  - exists id, label, transcript, piece. now repeat split.
Qed.

End PipelineFacts.

(* ================================================================== *)
(** ** The theorems at concrete inputs *)

(** The first sentence of the worked example qualifies as a game mechanic
    and is stored as one. *)
Lemma extract_key_insights_categories_witness :
  In (py "We need to optimize performance for the game") (re_split demo_text)
  /\ qualifies ascii_lower game_keywords
       (py "We need to optimize performance for the game") = true
  /\ In (strip (py "We need to optimize performance for the game"))
        (game_mechanics (extract_key_insights ascii_lower demo_text (py "Demo"))).
Proof.
  assert (Hin : In (py "We need to optimize performance for the game")
                   (re_split demo_text)) by (left; reflexivity).
  assert (Hq : qualifies ascii_lower game_keywords
                 (py "We need to optimize performance for the game") = true)
    by (vm_compute; reflexivity).
  split; [exact Hin|]. split; [exact Hq|].
  exact (proj2 (proj2 (extract_key_insights_categories ascii_lower demo_text
                         (py "Demo") GameMechanics)) _ Hin Hq).
Defined.

(** A text without terminators is one piece; "Hi! Bye" is split at its
    '!'; the worked example is classified as its first sentence followed
    by the rest. *)
Lemma extract_key_insights_splits_at_terminators_witness :
  (terminator_free (py "no punctuation here")
   /\ re_split (py "no punctuation here") = [py "no punctuation here"])
  /\ (terminator_free (py "Hi") /\ is_terminator 33%N = true
      /\ re_split (py "Hi" ++ 33%N :: py " Bye")
         = py "Hi" :: re_split (py " Bye"))
  /\ (terminator_free demo_optimize /\ is_terminator 46%N = true
      /\ game_mechanics
           (extract_key_insights ascii_lower
              (demo_optimize
               ++ 46%N :: py " Initialize the player position carefully.")
              (py "Demo"))
         = game_mechanics
             (classify_sentence ascii_lower
                (mkInsights (py "Demo") [] [] [] [] []) demo_optimize)
           ++ game_mechanics
                (extract_key_insights ascii_lower
                   (py " Initialize the player position carefully.")
                   (py "Demo"))).
Proof.
  assert (H1 : terminator_free (py "no punctuation here"))
    by (apply terminator_free_check; reflexivity).
  assert (H2 : terminator_free (py "Hi"))
    by (apply terminator_free_check; reflexivity).
  assert (H3 : terminator_free demo_optimize)
    by (apply terminator_free_check; reflexivity).
  pose proof (extract_key_insights_splits_at_terminators ascii_lower)
    as [_ [Hone [Hcons [_ [_ [_ [_ Hseq]]]]]]].
  split; [|split].
  - split; [exact H1 | exact (Hone _ H1)].
  - split; [exact H2|]. split; [reflexivity|].
    exact (Hcons _ 33%N _ H2 eq_refl).
  - split; [exact H3|]. split; [reflexivity|].
    exact (proj1 (Hseq demo_optimize 46%N
                    (py " Initialize the player position carefully.")
                    (py "Demo") H3 eq_refl) GameMechanics).
Defined.

Lemma demo_example_witness :
  (forall s, is_ascii s -> ascii_lower s = ascii_lower s)
  /\ extract_key_insights ascii_lower demo_text (py "Demo")
     = mkInsights (py "Demo")
         [demo_initialize] [demo_optimize] [demo_optimize; demo_initialize]
         [demo_initialize] [].
Proof.
  split; [reflexivity|].
  exact (proj1 (demo_example ascii_lower (fun s _ => eq_refl))).
Defined.

(** A transcript service that fails on every identifier. *)
Lemma failed_fetch_is_skipped_witness :
  let fetch := fun _ : str => @None str in
  let run := analyze_videos ascii_lower str fetch (fun text => text)
                            (@length char) in
  (forall l x, In x (distinct l) <-> In x l)
  /\ fetch (py "OhMs-ipk8gE") = None
  /\ run [(py "OhMs-ipk8gE", py "MediaPipe Pose Detection in JavaScript")] = []
  /\ generate_markdown_report distinct (py "2024-01-01 00:00:00")
       (run [(py "OhMs-ipk8gE", py "MediaPipe Pose Detection in JavaScript")])
     = report_header (py "2024-01-01 00:00:00") 0
       ++ performance_heading ++ game_heading ++ issues_heading
       ++ summaries_heading ++ static_trailer.
Proof.
  intros fetch run.
  pose proof (failed_fetch_is_skipped ascii_lower distinct
                (py "2024-01-01 00:00:00") str fetch (fun text => text)
                (@length char) distinct_In (py "OhMs-ipk8gE")
                (py "MediaPipe Pose Detection in JavaScript") eq_refl)
    as [_ [Hnil [_ Hreport]]].
  split; [exact distinct_In|]. split; [reflexivity|].
  split; [exact Hnil | exact Hreport].
Defined.

(** The first performance tip of the worked example. *)
Lemma stored_sentences_witness :
  In demo_optimize
     (performance_tips (extract_key_insights ascii_lower demo_text (py "Demo")))
  /\ begins_with_space demo_optimize = false
  /\ ends_with_space demo_optimize = false
  /\ ~ In 46%N demo_optimize.
Proof.
  assert (Hin : In demo_optimize
                   (performance_tips
                      (extract_key_insights ascii_lower demo_text (py "Demo"))))
    by (vm_compute; left; reflexivity).
  pose proof (stored_sentences_trimmed_and_unterminated ascii_lower demo_text
                (py "Demo") demo_optimize (or_intror (or_introl Hin)))
    as [Hb [He [_ [Hdot _]]]].
  split; [exact Hin|]. split; [exact Hb|]. split; [exact He | exact Hdot].
Defined.

Lemma repeated_sentence_kept_twice_witness :
  (forall s, is_ascii s -> ascii_lower s = ascii_lower s)
  /\ (forall l, NoDup (distinct l))
  /\ (forall l x, In x (distinct l) <-> In x l)
  /\ implementation_patterns
       (extract_key_insights ascii_lower repeated_text (py "Demo"))
     = [repeated_sentence; repeated_sentence]
  /\ aggregate_section distinct Implementation
       [mkInsightRecord
          (extract_key_insights ascii_lower repeated_text (py "Demo"))
          (py "OhMs-ipk8gE") 2]
     = [repeated_sentence].
Proof.
  pose proof (repeated_sentence_kept_twice ascii_lower (fun s _ => eq_refl)
                distinct distinct_NoDup distinct_In
                (py "Demo") (py "OhMs-ipk8gE") 2)
    as [_ [Htwice [_ Honce]]].
  split; [reflexivity|]. split; [exact distinct_NoDup|].
  split; [exact distinct_In|]. split; [exact Htwice | exact Honce].
Defined.

(* ================================================================== *)
(** ** The further theorems at concrete inputs *)

Lemma demo_text_is_ascii : is_ascii demo_text.
Proof.
  apply isascii_spec. reflexivity.
Qed.

Lemma extract_key_insights_join_witness :
  is_terminator 46%N = true
  /\ game_mechanics
       (extract_key_insights ascii_lower
          (demo_optimize ++ 46%N :: py " " ++ demo_initialize) (py "Demo"))
     = game_mechanics (extract_key_insights ascii_lower demo_optimize (py "Demo"))
       ++ game_mechanics
            (extract_key_insights ascii_lower (py " " ++ demo_initialize)
                                  (py "Demo")).
Proof.
  split; [reflexivity|].
  exact (proj1 (extract_key_insights_join ascii_lower demo_optimize
                  (py " " ++ demo_initialize) (py "Demo") 46%N eq_refl)
               GameMechanics).
Defined.

(** A text of exactly 20 characters that holds a keyword. *)
Lemma keyword_entries_length_witness :
  length (py "optimize the game ok") <= 20
  /\ performance_tips
       (extract_key_insights ascii_lower (py "optimize the game ok") (py "Demo"))
     = [].
Proof.
  assert (H : length (py "optimize the game ok") <= 20)
    by (vm_compute; repeat constructor).
  split; [exact H|].
  exact (proj2 (keyword_entries_length ascii_lower (py "optimize the game ok")
                  (py "Demo") Performance) H).
Defined.

Lemma code_snippets_hold_a_word_witness :
  In (py "x = let")
     (code_snippets (extract_key_insights ascii_lower (py "x = let ") (py "Demo")))
  /\ exists word, In word code_words /\ occurs_in word (py "x = let").
Proof.
  assert (H : In (py "x = let")
                 (code_snippets
                    (extract_key_insights ascii_lower (py "x = let ") (py "Demo"))))
    by (vm_compute; left; reflexivity).
  split; [exact H|].
  exact (code_snippets_hold_a_word ascii_lower (py "x = let ") (py "Demo")
           (py "x = let") H).
Defined.

Lemma keyword_entries_hold_a_keyword_witness :
  (forall s, is_ascii s -> ascii_lower s = ascii_lower s)
  /\ is_ascii demo_text
  /\ In demo_initialize
        (common_issues (extract_key_insights ascii_lower demo_text (py "Demo")))
  /\ exists keyword,
       In keyword issue_keywords
       /\ occurs_in keyword (ascii_lower demo_initialize).
Proof.
  assert (H : In demo_initialize
                 (common_issues
                    (extract_key_insights ascii_lower demo_text (py "Demo"))))
    by (vm_compute; left; reflexivity).
  split; [reflexivity|]. split; [exact demo_text_is_ascii|].
  split; [exact H|].
  exact (keyword_entries_hold_a_keyword ascii_lower (fun s _ => eq_refl)
           demo_text (py "Demo") demo_initialize CommonIssues
           demo_text_is_ascii H).
Defined.

Lemma lowercased_text_same_selection_witness :
  (forall s, is_ascii s -> ascii_lower s = ascii_lower s)
  /\ is_ascii demo_text
  /\ game_mechanics
       (extract_key_insights ascii_lower (ascii_lower demo_text) (py "Demo"))
     = map ascii_lower
         (game_mechanics (extract_key_insights ascii_lower demo_text (py "Demo"))).
Proof.
  split; [reflexivity|]. split; [exact demo_text_is_ascii|].
  exact (lowercased_text_same_selection ascii_lower (fun s _ => eq_refl)
           demo_text (py "Demo") GameMechanics demo_text_is_ascii).
Defined.

(** The catalog of the source against a service that knows its first
    video only. *)
Lemma analyze_videos_keeps_successes_witness :
  let collected :=
    analyze_videos ascii_lower str demo_fetch (fun text => text)
                   (fun _ => 1) VIDEO_IDS in
  map (fun video : InsightRecord => (video_id video, title video)) collected
  = filter (fetch_succeeds demo_fetch) VIDEO_IDS
  /\ (exists video : InsightRecord,
        In video collected
        /\ In (video_id video, title video) VIDEO_IDS
        /\ exists transcript,
             demo_fetch (video_id video) = Some transcript
             /\ classified video
                = extract_key_insights ascii_lower transcript (title video)
             /\ transcript_length video = 1).
Proof.
  intros collected.
  pose proof (analyze_videos_keeps_successes ascii_lower str demo_fetch
                (fun text => text) (fun _ => 1) VIDEO_IDS) as [Hids [Hrec _]].
  split; [exact Hids|].
  exists (mkInsightRecord
            (extract_key_insights ascii_lower demo_text
               (py "MediaPipe Pose Detection in JavaScript"))
            (py "OhMs-ipk8gE") 1).
  assert (Hin : In (mkInsightRecord
                      (extract_key_insights ascii_lower demo_text
                         (py "MediaPipe Pose Detection in JavaScript"))
                      (py "OhMs-ipk8gE") 1) collected)
    by (left; reflexivity).
  split; [exact Hin | exact (Hrec _ Hin)].
Defined.

Lemma all_fetches_fail_witness :
  let fetch := fun _ : str => @None str in
  (forall l x, In x (distinct l) <-> In x l)
  /\ (forall entry, In entry VIDEO_IDS -> fetch (fst entry) = None)
  /\ analyze_videos ascii_lower str fetch (fun text => text) (fun _ => 1)
       VIDEO_IDS = [].
Proof.
  intros fetch.
  assert (H : forall entry, In entry VIDEO_IDS -> fetch (fst entry) = None)
    by reflexivity.
  split; [exact distinct_In|]. split; [exact H|].
  exact (proj1 (all_fetches_fail ascii_lower distinct
                  (py "2024-01-01 00:00:00") str fetch (fun text => text)
                  (fun _ => 1) distinct_In VIDEO_IDS H)).
Defined.

(** Two collections that differ in [code_snippets] only. *)
Lemma report_ignores_code_snippets_witness :
  let first := [mkInsightRecord
                  (mkInsights (py "A") [repeated_sentence] [] [] []
                              [py "let x = 1"])
                  (py "a") 1] in
  let second := [mkInsightRecord
                   (mkInsights (py "A") [repeated_sentence] [] [] [] [])
                   (py "a") 1] in
  map without_code_snippets first = map without_code_snippets second
  /\ generate_markdown_report distinct (py "2024-01-01 00:00:00") first
     = generate_markdown_report distinct (py "2024-01-01 00:00:00") second.
Proof.
  intros first second.
  assert (H : map without_code_snippets first
              = map without_code_snippets second) by reflexivity.
  split; [exact H|].
  exact (report_ignores_code_snippets distinct (py "2024-01-01 00:00:00")
           first second H).
Defined.

Lemma keyword_entries_are_stable_witness :
  (forall s, is_ascii s -> ascii_lower s = ascii_lower s)
  /\ is_ascii demo_text
  /\ In demo_initialize
        (common_issues (extract_key_insights ascii_lower demo_text (py "Demo")))
  /\ common_issues
       (extract_key_insights ascii_lower demo_initialize (py "Again"))
     = [demo_initialize].
Proof.
  assert (H : In demo_initialize
                 (common_issues
                    (extract_key_insights ascii_lower demo_text (py "Demo"))))
    by (vm_compute; left; reflexivity).
  split; [reflexivity|]. split; [exact demo_text_is_ascii|].
  split; [exact H|].
  exact (keyword_entries_are_stable ascii_lower (fun s _ => eq_refl)
           demo_text (py "Demo") demo_initialize (py "Again") CommonIssues
           demo_text_is_ascii H).
Defined.

Lemma aggregate_section_lines_witness :
  let data := [mkInsightRecord
                 (mkInsights (py "A") [] [] [demo_optimize; demo_initialize]
                             [] [])
                 (py "a") 1] in
  (forall l x, In x (distinct l) <-> In x l)
  /\ (forall (video : InsightRecord) sentence,
        In video data -> In sentence (game_mechanics video) ->
        ~ In 10%N sentence)
  /\ line_breaks
       (concat (map bullet (aggregate_section distinct GameMechanics data)))
     = length (aggregate_section distinct GameMechanics data).
Proof.
  intros data.
  assert (H : forall (video : InsightRecord) sentence,
            In video data ->
            In sentence (sequence_of GameMechanics (classified video)) ->
            ~ In 10%N sentence).
  { intros video sentence [<- | []] [<- | [<- | []]] Hnl;
      vm_compute in Hnl;
      repeat (destruct Hnl as [Hnl | Hnl]; [discriminate|]); exact Hnl. }
  split; [exact distinct_In|]. split; [exact H|].
  exact (proj1 (aggregate_section_lines distinct distinct_In data
                  GameMechanics H)).
Defined.

(* ================================================================== *)
(** ** Sentences that hold line breaks *)

(** Twelve captions without punctuation are one candidate sentence and one
    implementation pattern; written into the report, it gives twelve
    bullet lines in the section. *)
Lemma report_section_with_twelve_bullets :
  let record :=
    mkInsightRecord
      (extract_key_insights ascii_lower dialogue_text (py "Demo"))
      (py "OhMs-ipk8gE") 12 in
  length (implementation_patterns record) = 1
  /\ 10 < length (section_bullets Implementation
                    (generate_markdown_report distinct
                       (py "2024-01-01 00:00:00") [record])).
Proof.
  intros record. vm_compute. split; [reflexivity | repeat constructor].
Qed.

(** Two different sentences, each the only pattern of its record, the
    second holding the first after a line break: the section shows the
    bullet of the first twice. *)
Lemma report_section_with_equal_bullets :
  let first :=
    mkInsightRecord (extract_key_insights ascii_lower loop_sentence (py "A"))
                    (py "a") 1 in
  let second :=
    mkInsightRecord (extract_key_insights ascii_lower canvas_sentence (py "B"))
                    (py "b") 2 in
  let report :=
    generate_markdown_report distinct (py "2024-01-01 00:00:00")
                             [first; second] in
  implementation_patterns first = [loop_sentence]
  /\ implementation_patterns second = [canvas_sentence]
  /\ loop_sentence <> canvas_sentence
  /\ count_occ str_eq_dec (section_bullets Implementation report)
               (bullet_line loop_sentence) = 2
  /\ ~ NoDup (section_bullets Implementation report).
Proof.
  intros first second report.
  assert (Hcount : count_occ str_eq_dec (section_bullets Implementation report)
                             (bullet_line loop_sentence) = 2)
    by (vm_compute; reflexivity).
  split; [vm_compute; reflexivity|]. split; [vm_compute; reflexivity|].
  split; [intros E; vm_compute in E; discriminate E|].
  split; [exact Hcount|].
  intros Hnd.
  pose proof (proj1 (NoDup_count_occ str_eq_dec _) Hnd
                (bullet_line loop_sentence)) as Hle.
  rewrite Hcount in Hle. lia.
Qed.

(* ================================================================== *)
(** ** The report theorems at concrete inputs *)

Lemma report_sections_at_most_ten_bullets_witness :
  let now := py "2024-01-01 00:00:00" in
  let data :=
    [mkInsightRecord (extract_key_insights ascii_lower demo_text (py "Demo"))
                     (py "OhMs-ipk8gE") 1] in
  (forall l x, In x (distinct l) <-> In x l)
  /\ single_line now = true
  /\ single_line_records data = true
  /\ section_bullets GameMechanics (generate_markdown_report distinct now data)
     = map bullet_line (aggregate_section distinct GameMechanics data)
  /\ length (section_bullets GameMechanics
               (generate_markdown_report distinct now data)) <= 10.
Proof.
  intros now data.
  split; [exact distinct_In|]. split; [reflexivity|].
  split; [vm_compute; reflexivity|].
  exact (proj2 (proj2 (report_sections_at_most_ten_bullets distinct now
                         distinct_In data))
               eq_refl eq_refl GameMechanics).
Defined.

(** Two records that hold the same sentences. *)
Lemma report_sections_deduplicated_witness :
  let now := py "2024-01-01 00:00:00" in
  let data :=
    [mkInsightRecord (extract_key_insights ascii_lower demo_text (py "First"))
                     (py "OhMs-ipk8gE") 1;
     mkInsightRecord (extract_key_insights ascii_lower demo_text (py "Second"))
                     (py "cc0H_sZrOiM") 1] in
  (forall l, NoDup (distinct l))
  /\ (forall l x, In x (distinct l) <-> In x l)
  /\ single_line now = true
  /\ single_line_records data = true
  /\ NoDup (section_bullets GameMechanics
              (generate_markdown_report distinct now data))
  /\ count_occ str_eq_dec
       (section_bullets GameMechanics
          (generate_markdown_report distinct now data))
       (bullet_line demo_optimize) <= 1.
Proof.
  intros now data.
  pose proof (proj2 (proj2 (proj2 (proj2
                (report_sections_deduplicated distinct now distinct_NoDup
                   distinct_In data GameMechanics))))
                eq_refl eq_refl) as [Hnd Hcount].
  split; [exact distinct_NoDup|]. split; [exact distinct_In|].
  split; [reflexivity|]. split; [vm_compute; reflexivity|].
  split; [exact Hnd | exact (Hcount demo_optimize)].
Defined.

Lemma section_bullet_count_witness :
  let now := py "2024-01-01 00:00:00" in
  let data :=
    [mkInsightRecord (extract_key_insights ascii_lower demo_text (py "First"))
                     (py "OhMs-ipk8gE") 1;
     mkInsightRecord (extract_key_insights ascii_lower demo_text (py "Second"))
                     (py "cc0H_sZrOiM") 1] in
  (forall l, NoDup (distinct l))
  /\ (forall l x, In x (distinct l) <-> In x l)
  /\ single_line now = true
  /\ single_line_records data = true
  /\ length (section_bullets GameMechanics
               (generate_markdown_report distinct now data))
     = Nat.min 10 (length (distinct (pooled game_mechanics data))).
Proof.
  intros now data.
  split; [exact distinct_NoDup|]. split; [exact distinct_In|].
  split; [reflexivity|]. split; [vm_compute; reflexivity|].
  exact (section_bullet_count distinct now distinct_NoDup distinct_In data
           GameMechanics eq_refl eq_refl).
Defined.

Lemma section_bullets_are_sentences_witness :
  let now := py "2024-01-01 00:00:00" in
  let record :=
    mkInsightRecord (extract_key_insights ascii_lower demo_text (py "Demo"))
                    (py "OhMs-ipk8gE") 1 in
  single_line now = true
  /\ single_line_records [record] = true
  /\ length (distinct (pooled game_mechanics [record])) <= 10
  /\ In record [record]
  /\ In demo_initialize (game_mechanics record)
  /\ In (bullet_line demo_initialize)
        (section_bullets GameMechanics
           (generate_markdown_report distinct now [record])).
Proof.
  intros now record.
  assert (Hfew : length (distinct (pooled (sequence_of GameMechanics)
                                          [record])) <= 10)
    by (vm_compute; repeat constructor).
  assert (Hv : In record [record]) by (left; reflexivity).
  assert (Hs : In demo_initialize
                  (sequence_of GameMechanics (classified record)))
    by (vm_compute; right; left; reflexivity).
  split; [reflexivity|]. split; [vm_compute; reflexivity|].
  split; [exact Hfew|]. split; [exact Hv|]. split; [exact Hs|].
  exact (proj2 (section_bullets_are_sentences distinct now distinct_NoDup
                  distinct_In [record] GameMechanics eq_refl eq_refl)
               Hfew record demo_initialize Hv Hs).
Defined.

(** The catalog of the source against the service that knows its first
    video, whose transcript is one line. *)
Lemma report_bullets_come_from_transcripts_witness :
  let now := py "2024-01-01 00:00:00" in
  let collected :=
    analyze_videos ascii_lower str demo_fetch (fun text => text)
                   (fun _ => 1) VIDEO_IDS in
  single_line now = true
  /\ (forall entry transcript,
        In entry VIDEO_IDS -> demo_fetch (fst entry) = Some transcript ->
        single_line transcript = true)
  /\ In (bullet_line demo_optimize)
        (section_bullets GameMechanics
           (generate_markdown_report distinct now collected))
  /\ 22 < length (bullet_line demo_optimize).
Proof.
  intros now collected.
  assert (Hclean : forall entry transcript,
            In entry VIDEO_IDS -> demo_fetch (fst entry) = Some transcript ->
            single_line transcript = true).
  { intros entry transcript _ Hfetch. unfold demo_fetch in Hfetch.
    destruct (str_eq_dec (fst entry) (py "OhMs-ipk8gE")); [|discriminate].
    injection Hfetch as <-. reflexivity. }
  assert (Hin : In (bullet_line demo_optimize)
                   (section_bullets GameMechanics
                      (generate_markdown_report distinct now collected)))
    by (vm_compute; left; reflexivity).
  split; [reflexivity|]. split; [exact Hclean|]. split; [exact Hin|].
  exact (proj1 (report_bullets_come_from_transcripts ascii_lower distinct now
                  str demo_fetch (fun text => text) (fun _ => 1) distinct_In
                  VIDEO_IDS GameMechanics (bullet_line demo_optimize)
                  eq_refl Hclean Hin)).
Defined.
